(** * Wikipedia embedding benchmark: batching, readiness gate and statistics

    A shallow embedding of [applications/wikipedia/main.py]: the chunk and
    batch generators, the readiness loop of [spawn_server], and the driver
    [embed_dataset] with its throughput statistics.

    Python values are modelled as the code has them: [int] as [Z], [float]
    as the binary64 numbers of [PrimFloat], [str] as a list of characters,
    a raised exception as the [Raise] case of [result]. *)

From Stdlib Require Import String Ascii DecimalString.
From Stdlib Require Import List ZArith Lia Bool Floats QArith Qround.
Import ListNotations.
Open Scope Z_scope.
Set Warnings "-inexact-float".

(* ===================================================================== *)
(** * Python runtime: exceptions, [range], slices                          *)
(* ===================================================================== *)

Declare Scope py_scope.
Delimit Scope py_scope with py.
Open Scope py_scope.

Module Py.

(** The exceptions the modelled code can raise. *)
Inductive exn : Type :=
| ValueError
| OverflowError
| ZeroDivisionError
| IndexError
| RuntimeError (msg : string).

Inductive result (A : Type) : Type :=
| Ok (a : A)
| Raise (e : exn).
Arguments Ok {A} a.
Arguments Raise {A} e.

Definition bind {A B} (m : result A) (k : A -> result B) : result B :=
  match m with
  | Ok a => k a
  | Raise e => Raise e
  end.

Notation "x <- m ;; k" := (bind m (fun x => k))
  (at level 61, m at next level, right associativity) : py_scope.

(** [len(range(lo, hi, step))] for a positive [step]. *)
Definition range_len (lo hi step : Z) : Z :=
  if lo <? hi then 1 + (hi - 1 - lo) / step else 0.

(** [range(start, stop, step)], materialised. A zero step raises
    [ValueError]; a negative step counts downwards. *)
Definition range (start stop step : Z) : result (list Z) :=
  if step =? 0 then Raise ValueError
  else
    let n := if 0 <? step then range_len start stop step
             else range_len stop start (- step) in
    Ok (map (fun i => start + Z.of_nat i * step) (seq 0 (Z.to_nat n))).

(** Slice bounds are clipped to [0, len]; a negative bound counts from
    the end. *)
Definition clip (len i : Z) : Z :=
  if i <? 0 then Z.max 0 (i + len) else Z.min i len.

(** [s[a:b]] on any sequence. *)
Definition slice {A} (s : list A) (a b : Z) : list A :=
  let len := Z.of_nat (length s) in
  let a' := clip len a in
  let b' := clip len b in
  firstn (Z.to_nat (b' - a')) (skipn (Z.to_nat a') s).

(** A keyword argument left out takes its default. *)
Definition kwarg {A} (default : A) (given : option A) : A :=
  match given with
  | Some a => a
  | None => default
  end.

(** ** Numbers: [int] is [Z], [float] is binary64 *)

(** [float(n)] for an [int], as the mixed operators [int * float] and
    [int / float] apply it: the nearest binary64, ties to even;
    [OverflowError] when that is out of range. *)
Definition float_of_int (n : Z) : result float :=
  let x := SF2Prim (binary_normalize prec emax n 0 false) in
  if is_finite x then Ok x else Raise OverflowError.

(** [int(x)] for a [float]: the digits after the point are dropped. The
    mantissa is shifted by the exponent, to the right when it is negative. *)
Definition int_of_float (x : float) : result Z :=
  match Prim2SF x with
  | S754_nan => Raise ValueError
  | S754_infinity _ => Raise OverflowError
  | S754_zero _ => Ok 0
  | S754_finite s m e => Ok (cond_Zopp s (Z.shiftl (Zpos m) e))
  end.

(** [round(x)] for a [float]: the nearest [int], ties to the even one. *)
Definition round_of_float (x : float) : result Z :=
  match Prim2SF x with
  | S754_nan => Raise ValueError
  | S754_infinity _ => Raise OverflowError
  | S754_zero _ => Ok 0
  | S754_finite s m e =>
      if 0 <=? e then Ok (cond_Zopp s (Z.shiftl (Zpos m) e))
      else
        let d := 2 ^ (- e) in
        let q := Zpos m / d in
        let r := Zpos m mod d in
        let up := (d <? 2 * r) || ((d =? 2 * r) && Z.odd q) in
        Ok (cond_Zopp s (if up then q + 1 else q))
  end.

(** [x / y] on two [float]s. *)
Definition float_truediv (x y : float) : result float :=
  if (y =? 0)%float then Raise ZeroDivisionError else Ok (x / y)%float.

(** An [int] as an unrounded mantissa with exponent 0. *)
Definition SF_of_int (n : Z) : spec_float :=
  match n with
  | Z0 => S754_zero false
  | Zpos p => S754_finite false p 0
  | Zneg p => S754_finite true p 0
  end.

(** [a / b] on two [int]s: the quotient rounded once to binary64. *)
Definition int_truediv (a b : Z) : result float :=
  if b =? 0 then Raise ZeroDivisionError
  else
    let q := SF2Prim (SFdiv prec emax (SF_of_int a) (SF_of_int b)) in
    if is_finite q then Ok q else Raise OverflowError.

(** The rational number a finite [float] stands for, to state what the
    conversions compute ([0] for infinities and NaN). *)
Definition SF2Q (x : spec_float) : Q :=
  match x with
  | S754_finite s m e =>
      match e with
      | Zneg k => Qmake (cond_Zopp s (Zpos m)) (2 ^ k)%positive
      | _ => inject_Z (cond_Zopp s (Zpos m * 2 ^ e))
      end
  | _ => 0%Q
  end.

Definition float_value (x : float) : Q := SF2Q (Prim2SF x).

(** ** Text formatting *)

(** ["%d" % n]. *)
Definition dec (n : Z) : string := NilZero.string_of_int (Z.to_int n).

Fixpoint zeros (n : nat) : string :=
  match n with
  | O => EmptyString
  | S n' => String "0" (zeros n')
  end.

(** ["%0<width>d" % n] for a non-negative [n]. *)
Definition zfill (width : nat) (n : Z) : string :=
  let digits := dec n in
  String.append (zeros (width - String.length digits)) digits.

(** ** [datetime.timedelta] *)

(** A normalised duration: [0 <= seconds < 86400] and
    [0 <= microseconds < 1000000]. *)
Record timedelta : Type :=
  { days : Z; seconds : Z; microseconds : Z }.

(** Normalisation of a count of microseconds; more than 999999999 days
    either way is an [OverflowError]. *)
Definition timedelta_of_microseconds (us : Z) : result timedelta :=
  let s := us / 1000000 in
  let d := s / 86400 in
  if 999999999 <? Z.abs d then Raise OverflowError
  else Ok {| days := d; seconds := s mod 86400;
             microseconds := us mod 1000000 |}.

(** [timedelta(seconds=n)] for an [int]. *)
Definition timedelta_of_int_seconds (n : Z) : result timedelta :=
  timedelta_of_microseconds (n * 1000000).

(** [timedelta(seconds=x)] for a [float]: the whole seconds are taken
    exactly, the fraction is scaled to microseconds in floating point
    and rounded, ties to even. *)
Definition timedelta_of_float_seconds (x : float) : result timedelta :=
  whole <- int_of_float x ;;
  whole_f <- float_of_int whole ;;
  us <- round_of_float ((x - whole_f) * 1000000)%float ;;
  timedelta_of_microseconds (whole * 1000000 + us).

(** [str(td)]: ["H:MM:SS"], with the days in front when there are any and
    the microseconds behind when there are any. *)
Definition timedelta_str (td : timedelta) : string :=
  let mm := seconds td / 60 in
  let ss := seconds td mod 60 in
  let hh := mm / 60 in
  let mm := mm mod 60 in
  let s := (dec hh ++ ":" ++ zfill 2 mm ++ ":" ++ zfill 2 ss)%string in
  let plural := if Z.abs (days td) =? 1 then EmptyString else "s"%string in
  let s :=
    if days td =? 0 then s
    else (dec (days td) ++ " day" ++ plural ++ ", " ++ s)%string in
  if microseconds td =? 0 then s
  else (s ++ "." ++ zfill 6 (microseconds td))%string.

(** ** Values of a flat [dict] *)

Inductive value : Type :=
| VFloat (x : float)
| VInt (n : Z)
| VStr (s : string).

(** A [dict] literal with string keys, in insertion order. *)
Definition dict : Type := list (string * value).

Fixpoint dict_get (d : dict) (key : string) : option value :=
  match d with
  | [] => None
  | (k, v) :: d' => if String.eqb k key then Some v else dict_get d' key
  end.

Definition keys (d : dict) : list string := map fst d.

End Py.

Import Py.

(* ===================================================================== *)
(** * Chunker and batcher                                                 *)
(* ===================================================================== *)

Section Generators.

(** Characters of a Python [str]; the generators never inspect them. *)
Context {char : Type}.

(** A dataset row; [data["text"]] is its only field read. *)
Record TextRecord : Type := { text : list char }.

(** The inner loop of [generate_chunks_from_dataset] for one row:
    [for chunk_start in range(0, len(text), chunk_size):
       yield text[chunk_start : chunk_start + chunk_size]]. *)
Definition chunks_of_text (t : list char) (chunk_size : Z)
  : result (list (list char)) :=
  starts <- range 0 (Z.of_nat (length t)) chunk_size ;;
  Ok (map (fun chunk_start => slice t chunk_start (chunk_start + chunk_size))
          starts).

(** [generate_chunks_from_dataset(xs, chunk_size)], the generator run to
    exhaustion. The rows are visited in order; an exception raised while
    a row is processed ends the stream. *)
Fixpoint generate_chunks_from_dataset_loop (xs : list TextRecord)
    (chunk_size : Z) : result (list (list char)) :=
  match xs with
  | [] => Ok []
  | data :: xs' =>
      here <- chunks_of_text (text data) chunk_size ;;
      rest <- generate_chunks_from_dataset_loop xs' chunk_size ;;
      Ok (here ++ rest)
  end.

Definition generate_chunks_from_dataset (xs : list TextRecord)
    (chunk_size : option Z) : result (list (list char)) :=
  generate_chunks_from_dataset_loop xs (kwarg 400 chunk_size).

End Generators.

(** The number of chunks a text of [len] characters is cut into for a
    positive [chunk_size]: [ceil(len / chunk_size)]. *)
Definition chunk_count (len chunk_size : Z) : nat :=
  Z.to_nat ((len + chunk_size - 1) / chunk_size).

Arguments TextRecord char : clear implicits.

Section Batcher.

Context {X : Type}.

(** The body of [generate_batches]: [batch] is the list being filled.
    After the loop a non-empty remainder is yielded. *)
Fixpoint generate_batches_loop (xs : list X) (batch : list X)
    (batch_size : Z) : list (list X) :=
  match xs with
  | [] =>
      match batch with
      | [] => []
      | _ :: _ => [batch]
      end
  | x :: xs' =>
      let batch := batch ++ [x] in
      if Z.of_nat (length batch) =? batch_size
      then batch :: generate_batches_loop xs' [] batch_size
      else generate_batches_loop xs' batch batch_size
  end.

(** [generate_batches(xs, batch_size=50)]. *)
Definition generate_batches (xs : list X) (batch_size : option Z)
  : list (list X) :=
  generate_batches_loop xs [] (kwarg 50 batch_size).

End Batcher.

(* ===================================================================== *)
(** * Readiness gate: [spawn_server]                                      *)
(* ===================================================================== *)

Definition BATCH_SIZE : Z := 128.

Definition LAUNCH_FLAGS : list string :=
  ["--model-id"; "BAAI/bge-base-en-v1.5"; "--port"; "8000";
   "--max-client-batch-size"; dec BATCH_SIZE]%string.

(** A child process started by [subprocess.Popen(args)]. *)
Record Popen : Type := { args : list string }.

(** What [socket.create_connection(("127.0.0.1", 8000), timeout=1)] does on
    one attempt: it connects, or raises one of the two exceptions the loop
    catches, or raises something else. *)
Inductive connect_outcome : Type :=
| Connected
| SocketTimeout
| ConnectionRefused
| ConnectError (e : exn).

(** What one pass through the polling loop observes of the outside world:
    the outcome of the connection attempt and, read only when the attempt
    was refused or timed out, what [process.poll()] returns ([None] while
    the process runs, its exit code afterwards). *)
Record probe : Type :=
  { connection : connect_outcome; poll : option Z }.

(** A loop either comes to an end, with the lines printed and a value or an
    exception, or is still going round when the observations run out. *)
Inductive outcome (A : Type) : Type :=
| Returned (stdout : list string) (r : result A)
| Polling.
Arguments Returned {A} stdout r.
Arguments Polling {A}.

(** The [while True] loop of [spawn_server], driven by the successive
    observations. *)
Fixpoint spawn_server_loop (process : Popen) (world : list probe)
  : outcome Popen :=
  match world with
  | [] => Polling
  | p :: world' =>
      match connection p with
      | Connected => Returned ["Webserver ready!"%string] (Ok process)
      | SocketTimeout
      | ConnectionRefused =>
          match poll p with
          | Some retcode =>
              Returned []
                (Raise (RuntimeError
                          ("launcher exited unexpectedly with code "
                           ++ dec retcode)%string))
          | None => spawn_server_loop process world'
          end
      | ConnectError e => Returned [] (Raise e)
      end
  end.

Definition spawn_server (world : list probe) : outcome Popen :=
  let process :=
    {| args := "text-embeddings-router"%string :: LAUNCH_FLAGS |} in
  spawn_server_loop process world.

(** A pass on which the server is not reachable yet and the process is
    still running. *)
Definition not_ready_yet (p : probe) : Prop :=
  (connection p = SocketTimeout \/ connection p = ConnectionRefused)
  /\ poll p = None.

(* ===================================================================== *)
(** * Driver: [embed_dataset]                                             *)
(* ===================================================================== *)

Definition N_GPU : Z := 6.

(** Lines 206 to 221 of the driver: the statistics of a run, from the
    characters counted, the time the dispatch took, the sampling fraction
    and the size of the whole corpus. *)
Definition run_statistics (counter : Z) (duration down_scale : float)
    (dataset_chars : Z) : result dict :=
  counter_f <- float_of_int counter ;;
  chars_per_s <- float_truediv counter_f duration ;;
  characters_per_second <- int_of_float chars_per_s ;;
  extrapolated <- float_truediv duration down_scale ;;
  extrapolated_duration <- int_of_float extrapolated ;;
  td <- timedelta_of_int_seconds extrapolated_duration ;;
  let extrapolated_duration_fmt := timedelta_str td in
  tps_seconds <- int_truediv dataset_chars characters_per_second ;;
  td_tps <- timedelta_of_float_seconds tps_seconds ;;
  let extrapolated_duration_tps_fmt := timedelta_str td_tps in
  Ok [ ("downscale", VFloat down_scale);
       ("n_gpu", VInt N_GPU);
       ("duration", VFloat duration);
       ("characters_per_second", VInt characters_per_second);
       ("extrapolated_duration", VInt extrapolated_duration);
       ("extrapolated_duration_fmt", VStr extrapolated_duration_fmt);
       ("extrapolated_duration_tps_fmt", VStr extrapolated_duration_tps_fmt)
     ]%string.

(** [dataset.select(indices)]: the rows at the given positions; a position
    past the end is an [IndexError]. *)
Fixpoint select {A} (rows : list A) (indices : list Z) : result (list A) :=
  match indices with
  | [] => Ok []
  | i :: indices' =>
      match (if i <? 0 then None else nth_error rows (Z.to_nat i)) with
      | Some row => rest <- select rows indices' ;; Ok (row :: rest)
      | None => Raise IndexError
      end
  end.

(** [f.map(xs, order_outputs=True)]: the outputs of the calls in the order
    of the inputs; the first call that fails raises. *)
Fixpoint map_ordered {A B} (f : A -> result B) (xs : list A)
  : result (list B) :=
  match xs with
  | [] => Ok []
  | x :: xs' => y <- f x ;; ys <- map_ordered f xs' ;; Ok (y :: ys)
  end.

Section Driver.

Context {char embedding : Type}.

(** What a run reads from outside: the rows on disk, the answers of the
    embedding endpoint, and the two readings of [time.perf_counter()]
    around the dispatch loop. *)
Record World : Type :=
  { train : list (TextRecord char);
    endpoint : list (list char) -> result (list embedding);
    dispatch_start : float;
    dispatch_end : float }.

(** What a run does to the outside: the batches it hands to the workers. *)
Inductive event : Type :=
| Dispatch (batches : list (list (list char))).

(** [TextEmbeddingsInference.embed(texts)]. *)
Definition embed (w : World) (texts : list (list char))
  : result (list embedding * Z) :=
  let n_chars :=
    fold_left Z.add (map (fun t => Z.of_nat (length t)) texts) 0 in
  embeddings <- endpoint w texts ;;
  Ok (embeddings, n_chars).

(** Lines 173 to 192: the sample is taken, cut into chunks and batched. *)
Definition materialized_batchs (w : World) (down_scale : float)
  : result (list (list (list char))) :=
  let ttl_size := Z.of_nat (length (train w)) in
  ttl_size_f <- float_of_int ttl_size ;;
  sample_size <- int_of_float (ttl_size_f * down_scale)%float ;;
  indices <- range 0 sample_size 1 ;;
  subset <- select (train w) indices ;;
  text_chunks <- generate_chunks_from_dataset subset (Some 400) ;;
  Ok (generate_batches text_chunks (Some BATCH_SIZE)).

(** [embed_dataset(down_scale)]: the events of the run and its result. *)
Definition embed_dataset (w : World) (down_scale : float)
  : list event * result dict :=
  let dataset_chars := 19560538957 in
  match materialized_batchs w down_scale with
  | Raise e => ([], Raise e)
  | Ok batches =>
      ([Dispatch batches],
       outputs <- map_ordered (embed w) batches ;;
       let counter :=
         fold_left (fun counter '(_, (_, n_chars)) => counter + n_chars)
                   (combine batches outputs) 0 in
       let duration := (dispatch_end w - dispatch_start w)%float in
       run_statistics counter duration down_scale dataset_chars)
  end.

(** A run that is turned down before anything is dispatched. *)
Definition rejected_before_dispatch (run : list event * result dict) : Prop :=
  fst run = [] /\ exists e, snd run = Raise e.

End Driver.

(** ** A small world to run the driver in *)

(** One row on disk, an endpoint that answers every text with a vector of
    one number, and a dispatch that takes one second. *)
Definition one_row_world : @World ascii (list float) :=
  {| train := [ {| text := list_ascii_of_string "wikipedia" |} ];
     endpoint := fun texts => Ok (map (fun _ => [0%float]) texts);
     dispatch_start := 0;
     dispatch_end := 1 |}.

(* ===================================================================== *)
(** * Properties                                                          *)
(* ===================================================================== *)

Example chunks_hello :
  generate_chunks_from_dataset [ {| text := [1; 2; 3; 4; 5] |} ] (Some 2)
  = Ok [[1; 2]; [3; 4]; [5]].
Proof. reflexivity. Qed.

Example batches_five :
  generate_batches [1; 2; 3; 4; 5] (Some 2) = [[1; 2]; [3; 4]; [5]].
Proof. reflexivity. Qed.

(** ** Slices and ranges *)

Lemma firstn_firstn_skipn {A} (a b : nat) (l : list A) :
  firstn a l ++ firstn b (skipn a l) = firstn (a + b) l.
Proof.
  revert l; induction a as [|a IH]; intros l; simpl.
  - reflexivity.
  - destruct l as [|x l]; simpl.
    + now rewrite firstn_nil.
    + now rewrite IH.
Qed.

Lemma firstn_min_length {A} (n : nat) (l : list A) :
  firstn (Nat.min n (length l)) l = firstn n l.
Proof.
  destruct (Nat.le_ge_cases n (length l)) as [H|H].
  - now rewrite Nat.min_l.
  - rewrite Nat.min_r by assumption.
    now rewrite firstn_all, firstn_all2.
Qed.

(** A slice with in-range, non-negative bounds written with [firstn] and
    [skipn] alone: the clipping of the upper bound is what [firstn] does. *)
Lemma slice_window {A} (s : list A) (a n : nat) :
  slice s (Z.of_nat a) (Z.of_nat a + Z.of_nat n) = firstn n (skipn a s).
Proof.
  unfold slice, clip.
  destruct (Z.ltb_spec (Z.of_nat a) 0) as [Hneg|_]; [lia|].
  destruct (Z.ltb_spec (Z.of_nat a + Z.of_nat n) 0) as [Hneg|_]; [lia|].
  destruct (Nat.le_gt_cases (length s) a) as [Hout|Hin].
  - rewrite !Z.min_r by lia.
    rewrite Z.sub_diag; simpl.
    now rewrite skipn_all2, firstn_nil by lia.
  - rewrite (Z.min_l (Z.of_nat a)) by lia.
    rewrite Nat2Z.id.
    rewrite <- (firstn_min_length n (skipn a s)), length_skipn.
    f_equal. lia.
Qed.

Lemma range_len_ceil (len step : Z) :
  0 <= len -> 0 < step ->
  range_len 0 len step = (len + step - 1) / step.
Proof.
  intros Hlen Hstep. unfold range_len.
  destruct (Z.ltb_spec 0 len) as [Hpos|Hz].
  - replace (len + step - 1) with (len - 1 - 0 + 1 * step) by lia.
    rewrite Z.div_add by lia. lia.
  - assert (len = 0) by lia; subst len.
    symmetry; apply Z.div_small; lia.
Qed.

(** The ceiling of [a / b]: the least [n] with [a <= n * b]. *)
Lemma ceil_div_bounds (a b : Z) :
  0 < b ->
  ((a + b - 1) / b - 1) * b < a <= (a + b - 1) / b * b.
Proof.
  intros Hb.
  pose proof (Z.div_mod (a + b - 1) b ltac:(lia)) as Hdm.
  pose proof (Z.mod_pos_bound (a + b - 1) b Hb) as Hm.
  nia.
Qed.

Lemma range_from_zero (len step : Z) :
  0 <= len -> 0 < step ->
  range 0 len step =
  Ok (map (fun i => Z.of_nat i * step)
          (seq 0 (Z.to_nat ((len + step - 1) / step)))).
Proof.
  intros Hlen Hstep. unfold range.
  destruct (Z.eqb_spec step 0) as [E|_]; [lia|].
  destruct (Z.ltb_spec 0 step) as [_|E]; [|lia].
  now rewrite range_len_ceil.
Qed.

(** ** The chunks of one text *)

Section ChunkerFacts.

Context {char : Type}.
Implicit Types (t : list char) (c n k m : nat).

(** The windows of width [c] starting at multiples [k, k+1, ...] of [c]. *)
Lemma windows_concat t c k m :
  concat (map (fun i => firstn c (skipn (i * c) t)) (seq k m))
  = firstn (m * c) (skipn (k * c) t).
Proof.
  revert k; induction m as [|m IH]; intros k; simpl.
  - reflexivity.
  - rewrite IH.
    replace (S k * c)%nat with (c + k * c)%nat by lia.
    rewrite <- skipn_skipn.
    apply firstn_firstn_skipn.
Qed.

Lemma chunks_of_text_windows t (chunk_size : Z) :
  0 < chunk_size ->
  chunks_of_text t chunk_size =
  Ok (map (fun i => firstn (Z.to_nat chunk_size)
                           (skipn (i * Z.to_nat chunk_size) t))
          (seq 0 (Z.to_nat ((Z.of_nat (length t) + chunk_size - 1)
                            / chunk_size)))).
Proof.
  intros Hpos. unfold chunks_of_text.
  rewrite range_from_zero by lia. simpl.
  rewrite map_map. f_equal.
  apply map_ext; intros i.
  rewrite <- (slice_window t (i * Z.to_nat chunk_size) (Z.to_nat chunk_size)).
  rewrite Nat2Z.inj_mul, Z2Nat.id by lia.
  reflexivity.
Qed.

Lemma window_length t c i :
  length (firstn c (skipn (i * c) t)) = Nat.min c (length t - i * c).
Proof. now rewrite length_firstn, length_skipn. Qed.

End ChunkerFacts.

Lemma nth_error_map_seq {A} (f : nat -> A) (n i : nat) (a : A) :
  nth_error (map f (seq 0 n)) i = Some a -> (i < n)%nat /\ a = f i.
Proof.
  intros H.
  assert (Hi : (i < n)%nat).
  { rewrite <- (length_seq n 0), <- (length_map f).
    apply nth_error_Some. congruence. }
  split; [exact Hi|].
  rewrite nth_error_map, nth_error_seq in H.
  destruct (Nat.ltb_spec i n) as [_|Hge]; [|lia].
  simpl in H. congruence.
Qed.

Section ChunkerTheorems.

Context {char : Type}.

Lemma generate_chunks_single (s : list char) (chunk_size : Z) :
  0 < chunk_size ->
  generate_chunks_from_dataset [ {| text := s |} ] (Some chunk_size) =
  Ok (map (fun i => firstn (Z.to_nat chunk_size)
                           (skipn (i * Z.to_nat chunk_size) s))
          (seq 0 (chunk_count (Z.of_nat (length s)) chunk_size))).
Proof.
  intros Hpos.
  unfold generate_chunks_from_dataset; simpl.
  rewrite chunks_of_text_windows by assumption; simpl.
  now rewrite app_nil_r.
Qed.

(** Rows are cut one after the other, in source order. *)
Lemma generate_chunks_cons (r : TextRecord char) (xs : list (TextRecord char))
    (chunk_size : Z) (here rest : list (list char)) :
  generate_chunks_from_dataset [r] (Some chunk_size) = Ok here ->
  generate_chunks_from_dataset xs (Some chunk_size) = Ok rest ->
  generate_chunks_from_dataset (r :: xs) (Some chunk_size) = Ok (here ++ rest).
Proof.
  unfold generate_chunks_from_dataset; simpl.
  destruct (chunks_of_text (text r) chunk_size) as [h|e]; simpl; [|discriminate].
  intros [= <-] ->; simpl.
  now rewrite app_nil_r.
Qed.

Lemma chunk_count_covers (len chunk_size : Z) :
  0 <= len -> 0 < chunk_size ->
  (Z.to_nat len <= chunk_count len chunk_size * Z.to_nat chunk_size)%nat.
Proof.
  intros Hlen Hpos. unfold chunk_count.
  pose proof (ceil_div_bounds len chunk_size Hpos) as [_ Hup].
  assert (0 <= (len + chunk_size - 1) / chunk_size)
    by (apply Z.div_pos; lia).
  nia.
Qed.

Lemma chunk_count_starts_inside (len chunk_size : Z) (i : nat) :
  0 <= len -> 0 < chunk_size ->
  (i < chunk_count len chunk_size)%nat ->
  (i * Z.to_nat chunk_size < Z.to_nat len)%nat.
Proof.
  intros Hlen Hpos Hi. unfold chunk_count in Hi.
  pose proof (ceil_div_bounds len chunk_size Hpos) as [Hlow _].
  nia.
Qed.

(** C2. For a row with text [s] and a positive [chunk_size], the chunks
    emitted for the row, concatenated in order, are [s] again; every
    chunk is at most [chunk_size] long, every chunk but the last is
    exactly [chunk_size] long, and an empty text gives no chunk. *)
Theorem chunker_roundtrip (s : list char) (chunk_size : Z) :
  0 < chunk_size ->
  exists chunks : list (list char),
    generate_chunks_from_dataset [ {| text := s |} ] (Some chunk_size)
      = Ok chunks /\
    concat chunks = s /\
    (forall i c, nth_error chunks i = Some c ->
       Z.of_nat (length c) <= chunk_size) /\
    (forall i c, nth_error chunks i = Some c ->
       (S i < length chunks)%nat ->
       Z.of_nat (length c) = chunk_size) /\
    (s = [] -> chunks = []).
Proof.
  intros Hpos.
  eexists; split; [apply generate_chunks_single; assumption|].
  pose proof (chunk_count_covers (Z.of_nat (length s)) chunk_size
                ltac:(lia) Hpos) as Hcover.
  rewrite Nat2Z.id in Hcover.
  repeat split.
  - rewrite windows_concat; simpl.
    now apply firstn_all2.
  - intros i c Hc.
    apply nth_error_map_seq in Hc as [_ ->].
    rewrite window_length. lia.
  - intros i c Hc Hnext.
    rewrite length_map, length_seq in Hnext.
    apply nth_error_map_seq in Hc as [_ ->].
    pose proof (chunk_count_starts_inside (Z.of_nat (length s)) chunk_size (S i)
                  ltac:(lia) Hpos Hnext) as Hin.
    rewrite Nat2Z.id in Hin.
    rewrite window_length. lia.
  - intros ->; simpl.
    unfold chunk_count.
    replace ((0 + chunk_size - 1) / chunk_size) with 0
      by (symmetry; apply Z.div_small; lia).
    reflexivity.
Qed.

(** C9. For a row with text [s] and a positive [chunk_size], the number
    of chunks emitted is the ceiling of [len(s) / chunk_size], and no
    emitted chunk is the empty string. *)
Theorem chunker_count_nonempty (s : list char) (chunk_size : Z) :
  0 < chunk_size ->
  exists chunks : list (list char),
    generate_chunks_from_dataset [ {| text := s |} ] (Some chunk_size)
      = Ok chunks /\
    Z.of_nat (length chunks)
      = (Z.of_nat (length s) + chunk_size - 1) / chunk_size /\
    (Z.of_nat (length chunks) - 1) * chunk_size
      < Z.of_nat (length s)
      <= Z.of_nat (length chunks) * chunk_size /\
    Forall (fun c => c <> []) chunks.
Proof.
  intros Hpos.
  eexists; split; [apply generate_chunks_single; assumption|].
  assert (Hlen : Z.of_nat (length
            (map (fun i => firstn (Z.to_nat chunk_size)
                                  (skipn (i * Z.to_nat chunk_size) s))
                 (seq 0 (chunk_count (Z.of_nat (length s)) chunk_size))))
          = (Z.of_nat (length s) + chunk_size - 1) / chunk_size).
  { rewrite length_map, length_seq. unfold chunk_count.
    apply Z2Nat.id, Z.div_pos; lia. }
  split; [exact Hlen|].
  split; [rewrite Hlen; apply ceil_div_bounds; assumption|].
  apply Forall_forall; intros c Hc.
  apply in_map_iff in Hc as [i [<- Hi]].
  apply in_seq in Hi.
  pose proof (chunk_count_starts_inside (Z.of_nat (length s)) chunk_size i
                ltac:(lia) Hpos ltac:(lia)) as Hin.
  rewrite Nat2Z.id in Hin.
  intros Hnil.
  apply (f_equal (@length _)) in Hnil.
  rewrite window_length in Hnil. simpl in Hnil. lia.
Qed.

(** A whole dataset: the chunks of the rows follow one another in source
    order, none is empty and none is longer than [chunk_size]. *)
Lemma generate_chunks_dataset (xs : list (TextRecord char)) (chunk_size : Z) :
  0 < chunk_size ->
  exists chunks : list (list char),
    generate_chunks_from_dataset xs (Some chunk_size) = Ok chunks /\
    concat chunks = concat (map text xs) /\
    Forall (fun c => c <> [] /\ Z.of_nat (length c) <= chunk_size) chunks.
Proof.
  intros Hpos. unfold generate_chunks_from_dataset; simpl.
  induction xs as [|[t] xs (rest & Hrest & Hcat & Hall)]; simpl.
  - exists []. repeat split; constructor.
  - rewrite Hrest, chunks_of_text_windows by assumption; simpl.
    eexists; split; [reflexivity|].
    pose proof (chunk_count_covers (Z.of_nat (length t)) chunk_size
                  ltac:(lia) Hpos) as Hcover.
    rewrite Nat2Z.id in Hcover.
    split.
    + rewrite concat_app, Hcat, windows_concat; simpl.
      now rewrite firstn_all2.
    + apply Forall_app; split; [|exact Hall].
      apply Forall_forall; intros c Hc.
      apply in_map_iff in Hc as [i [<- Hi]].
      apply in_seq in Hi.
      pose proof (chunk_count_starts_inside (Z.of_nat (length t)) chunk_size i
                    ltac:(lia) Hpos ltac:(unfold chunk_count; lia)) as Hin.
      rewrite Nat2Z.id in Hin.
      split.
      * intros Hnil. apply (f_equal (@length _)) in Hnil.
        rewrite window_length in Hnil. simpl in Hnil. lia.
      * rewrite window_length. lia.
Qed.

End ChunkerTheorems.

(** ** The batcher *)

Section BatcherFacts.

Context {X : Type}.
Implicit Types (xs batch : list X) (batch_size : Z).

(** Nothing is lost or reordered: the batches, laid end to end, are the
    pending batch followed by the rest of the input. *)
Lemma generate_batches_loop_concat xs batch batch_size :
  concat (generate_batches_loop xs batch batch_size) = batch ++ xs.
Proof.
  revert batch; induction xs as [|x xs IH]; intros batch; simpl.
  - destruct batch; simpl; now rewrite ?app_nil_r.
  - destruct (Z.of_nat (length (batch ++ [x])) =? batch_size); simpl;
      rewrite IH; simpl; now rewrite <- app_assoc.
Qed.

Lemma generate_batches_loop_nonempty xs batch batch_size :
  Forall (fun b => b <> []) (generate_batches_loop xs batch batch_size).
Proof.
  revert batch; induction xs as [|x xs IH]; intros batch; simpl.
  - destruct batch; constructor; [discriminate|constructor].
  - destruct (Z.of_nat (length (batch ++ [x])) =? batch_size).
    + constructor; [|apply IH].
      destruct batch; discriminate.
    + apply IH.
Qed.

(** While the pending batch is short of [batch_size], no batch longer than
    [batch_size] is emitted. *)
Lemma generate_batches_loop_bounded xs batch batch_size :
  Z.of_nat (length batch) < batch_size ->
  Forall (fun b => Z.of_nat (length b) <= batch_size)
         (generate_batches_loop xs batch batch_size).
Proof.
  revert batch; induction xs as [|x xs IH]; intros batch Hlt; simpl.
  - destruct batch; constructor; [lia|constructor].
  - destruct (Z.eqb_spec (Z.of_nat (length (batch ++ [x]))) batch_size)
      as [Hfull|Hshort].
    + constructor; [lia|].
      apply IH; simpl; lia.
    + apply IH.
      rewrite length_app in *; simpl in *; lia.
Qed.

(** Every batch that is followed by another one is full. *)
Lemma generate_batches_loop_full xs batch batch_size :
  Z.of_nat (length batch) < batch_size ->
  forall i b,
    nth_error (generate_batches_loop xs batch batch_size) i = Some b ->
    (S i < length (generate_batches_loop xs batch batch_size))%nat ->
    Z.of_nat (length b) = batch_size.
Proof.
  revert batch; induction xs as [|x xs IH]; intros batch Hlt i b; simpl.
  - destruct batch; simpl; intros _ Hi; lia.
  - destruct (Z.eqb_spec (Z.of_nat (length (batch ++ [x]))) batch_size)
      as [Hfull|Hshort].
    + destruct i as [|i]; simpl.
      * intros [= <-] _; exact Hfull.
      * intros Hb Hi. apply (IH [] ltac:(simpl; lia) i b Hb). lia.
    + apply IH.
      rewrite length_app in *; simpl in *; lia.
Qed.

(** C3. For a positive [batch_size] the batches hold the input chunks, all
    of them and in input order; every batch but the last has exactly
    [batch_size] chunks, no batch is empty, and an empty input gives no
    batch at all. *)
Theorem batcher_complete xs batch_size :
  0 < batch_size ->
  let batches := generate_batches xs (Some batch_size) in
  concat batches = xs /\
  list_sum (map (@length X) batches) = length xs /\
  (forall i b, nth_error batches i = Some b ->
     (S i < length batches)%nat ->
     Z.of_nat (length b) = batch_size) /\
  Forall (fun b => b <> []) batches /\
  (xs = [] -> batches = []).
Proof.
  intros Hpos batches; subst batches; unfold generate_batches; simpl.
  assert (Hcat : concat (generate_batches_loop xs [] batch_size) = xs)
    by apply generate_batches_loop_concat.
  repeat split.
  - exact Hcat.
  - rewrite <- Hcat at 2. rewrite length_concat. reflexivity.
  - apply generate_batches_loop_full; simpl; lia.
  - apply generate_batches_loop_nonempty.
  - intros ->; reflexivity.
Qed.

(** C7, as the code has it. The default of [batch_size] is 50: with no
    batch size supplied every batch has at most 50 chunks and every batch
    but the last has exactly 50. *)
Theorem batcher_default_is_50 xs :
  let batches := generate_batches xs None in
  batches = generate_batches xs (Some 50) /\
  Forall (fun b => Z.of_nat (length b) <= 50) batches /\
  (forall i b, nth_error batches i = Some b ->
     (S i < length batches)%nat ->
     Z.of_nat (length b) = 50).
Proof.
  intros batches; subst batches; unfold generate_batches; simpl.
  repeat split.
  - apply generate_batches_loop_bounded; simpl; lia.
  - apply generate_batches_loop_full; simpl; lia.
Qed.

End BatcherFacts.

(** C7, as the claim has it, fails: 51 chunks and no batch size give a
    first batch of 50 chunks followed by another batch. *)
Lemma batcher_default_is_not_128 :
  let batches := generate_batches (repeat tt 51) None in
  ~ (forall i b, nth_error batches i = Some b ->
       (S i < length batches)%nat ->
       Z.of_nat (length b) = 128).
Proof.
  intros batches H.
  specialize (H 0%nat (repeat tt 50) eq_refl ltac:(simpl; lia)).
  vm_compute in H. discriminate.
Qed.

Lemma batcher_complete_witness :
  0 < 2 /\
  concat (generate_batches [1; 2; 3; 4; 5] (Some 2)) = [1; 2; 3; 4; 5].
Proof.
  split; [lia|].
  apply (batcher_complete [1; 2; 3; 4; 5] 2). lia.
Defined.

Lemma chunker_roundtrip_witness :
  0 < 2 /\
  exists chunks,
    generate_chunks_from_dataset [ {| text := [1; 2; 3; 4; 5] |} ] (Some 2)
      = Ok chunks /\
    concat chunks = [1; 2; 3; 4; 5].
Proof.
  split; [lia|].
  destruct (chunker_roundtrip [1; 2; 3; 4; 5] 2 ltac:(lia))
    as [chunks [Hrun [Hcat _]]].
  exists chunks; split; assumption.
Defined.

Lemma chunker_count_nonempty_witness :
  0 < 2 /\
  exists chunks,
    generate_chunks_from_dataset [ {| text := [1; 2; 3; 4; 5] |} ] (Some 2)
      = Ok chunks /\
    Z.of_nat (length chunks) = 3.
Proof.
  split; [lia|].
  destruct (chunker_count_nonempty [1; 2; 3; 4; 5] 2 ltac:(lia))
    as [chunks [Hrun [Hlen _]]].
  exists chunks; split; [assumption|].
  rewrite Hlen. reflexivity.
Defined.

(** ** Floats *)

(** A float that is neither NaN nor infinite is a zero or a finite
    mantissa and exponent. *)
Lemma is_finite_cases (x : float) :
  is_finite x = true ->
  (exists s, Prim2SF x = S754_zero s) \/
  (exists s m e, Prim2SF x = S754_finite s m e).
Proof.
  unfold is_finite, is_nan, is_infinity.
  rewrite !FloatAxioms.eqb_spec, FloatAxioms.abs_spec.
  replace (Prim2SF infinity) with (S754_infinity false) by reflexivity.
  destruct (Prim2SF x) as [s|s| |s m e]; simpl; intros H.
  - left; eauto.
  - destruct s; discriminate.
  - discriminate.
  - right; eauto.
Qed.

Lemma is_nan_false (x : float) :
  is_nan x = false -> Prim2SF x <> S754_nan.
Proof.
  unfold is_nan. rewrite FloatAxioms.eqb_spec.
  intros H E; rewrite E in H; discriminate.
Qed.

Lemma float_of_int_finite (n : Z) (x : float) :
  float_of_int n = Ok x -> is_finite x = true.
Proof.
  unfold float_of_int.
  destruct (is_finite _) eqn:E; [|discriminate].
  now intros [= <-].
Qed.

(** [int(x * 0.0)] is 0 for every finite [x]. *)
Lemma int_of_float_mul_zero (x : float) :
  is_finite x = true -> int_of_float (x * 0)%float = Ok 0.
Proof.
  intros Hfin. unfold int_of_float.
  rewrite FloatAxioms.mul_spec.
  replace (Prim2SF 0%float) with (S754_zero false) by reflexivity.
  destruct (is_finite_cases x Hfin) as [[s ->]|[s [m [e ->]]]]; reflexivity.
Qed.

(** [int(0.0 / d)] is 0 whenever the division goes through and [d] is a
    number. *)
Lemma int_of_float_zero_div (d q : float) :
  is_nan d = false ->
  float_truediv 0 d = Ok q ->
  int_of_float q = Ok 0.
Proof.
  intros Hnan. unfold float_truediv.
  destruct (d =? 0)%float eqn:Hz; [discriminate|].
  intros [= <-].
  rewrite FloatAxioms.eqb_spec in Hz.
  apply is_nan_false in Hnan.
  unfold int_of_float. rewrite FloatAxioms.div_spec.
  replace (Prim2SF 0%float) with (S754_zero false) in * by reflexivity.
  destruct (Prim2SF d) as [s|s| |s m e]; simpl in *;
    try reflexivity; try discriminate; congruence.
Qed.

Lemma pos_pow2_Z (k : positive) : Z.pos (2 ^ k) = 2 ^ Z.pos k.
Proof. now rewrite Pos2Z.inj_pow. Qed.

(** Shifting left by a negative count shifts right. *)
Lemma shiftl_neg_div (m k : positive) :
  Z.shiftl (Z.pos m) (Z.neg k) = Z.pos m / Z.pos (2 ^ k).
Proof.
  rewrite pos_pow2_Z.
  change (Z.shiftl (Z.pos m) (Z.neg k)) with (Z.shiftr (Z.pos m) (Z.pos k)).
  apply Z.shiftr_div_pow2. lia.
Qed.

(** [int()] rounds a non-negative float down... *)
Lemma int_of_float_floor (x : float) (n : Z) :
  int_of_float x = Ok n ->
  (0 <= float_value x)%Q ->
  n = Qfloor (float_value x).
Proof.
  unfold int_of_float, float_value.
  destruct (Prim2SF x) as [s|s| |s m e]; try discriminate.
  - now intros [= <-].
  - intros [= <-].
    destruct s.
    + (* a negative float is not above zero *)
      intros Hsign; exfalso; revert Hsign.
      destruct e as [|k|k];
        [ | pose proof (Z.pow_pos_nonneg 2 (Z.pos k) ltac:(lia) ltac:(lia)) | ];
        unfold SF2Q, Qle, cond_Zopp; cbn [Qnum Qden inject_Z]; nia.
    + intros _.
      destruct e as [|k|k]; unfold SF2Q, Qfloor, cond_Zopp;
        cbn [Qnum Qden inject_Z].
      * now rewrite Z.shiftl_mul_pow2, Z.div_1_r by lia.
      * now rewrite Z.shiftl_mul_pow2, Z.div_1_r by lia.
      * apply shiftl_neg_div.
Qed.

(** ... and a non-positive one up: the digits after the point are cut. *)
Lemma int_of_float_ceiling (x : float) (n : Z) :
  int_of_float x = Ok n ->
  (float_value x <= 0)%Q ->
  n = Qceiling (float_value x).
Proof.
  unfold int_of_float, float_value.
  destruct (Prim2SF x) as [s|s| |s m e]; try discriminate.
  - now intros [= <-].
  - intros [= <-].
    destruct s.
    + intros _.
      destruct e as [|k|k]; unfold SF2Q, Qceiling, Qfloor, Qopp, cond_Zopp;
        cbn [Qnum Qden inject_Z]; rewrite Z.opp_involutive.
      * now rewrite Z.shiftl_mul_pow2, Z.div_1_r by lia.
      * now rewrite Z.shiftl_mul_pow2, Z.div_1_r by lia.
      * now rewrite shiftl_neg_div.
    + intros Hsign; exfalso; revert Hsign.
      destruct e as [|k|k];
        [ | pose proof (Z.pow_pos_nonneg 2 (Z.pos k) ltac:(lia) ltac:(lia)) | ];
        unfold SF2Q, Qle, cond_Zopp; cbn [Qnum Qden inject_Z]; nia.
Qed.

(** ** The readiness gate *)

Lemma spawn_server_loop_skip (process : Popen) (pre world : list probe) :
  Forall not_ready_yet pre ->
  spawn_server_loop process (pre ++ world) = spawn_server_loop process world.
Proof.
  induction 1 as [|p pre [Hconn Hpoll] _ IH]; simpl.
  - reflexivity.
  - rewrite Hpoll. destruct Hconn as [-> | ->]; exact IH.
Qed.

(** C6. While every attempt so far was refused or timed out with the
    process still running: if the next attempt fails too and the process
    has exited with code [c], the gate raises the error carrying [c] and
    polls no further; if the next attempt connects, the gate reports the
    server ready and returns the process. *)
Theorem readiness_gate (pre : list probe) (p : probe) (rest : list probe) :
  Forall not_ready_yet pre ->
  (forall c,
     connection p = SocketTimeout \/ connection p = ConnectionRefused ->
     poll p = Some c ->
     spawn_server (pre ++ p :: rest)
     = Returned []
         (Raise (RuntimeError
                   ("launcher exited unexpectedly with code " ++ dec c)%string)))
  /\
  (connection p = Connected ->
   spawn_server (pre ++ p :: rest)
   = Returned ["Webserver ready!"%string]
       (Ok {| args := "text-embeddings-router"%string :: LAUNCH_FLAGS |})).
Proof.
  intros Hpre; unfold spawn_server; rewrite spawn_server_loop_skip by exact Hpre.
  split.
  - intros c Hconn Hpoll; simpl.
    rewrite Hpoll. destruct Hconn as [-> | ->]; reflexivity.
  - intros Hconn; simpl. now rewrite Hconn.
Qed.

(** Two failed attempts, then the process is found dead with code 1. *)
Lemma readiness_gate_witness :
  Forall not_ready_yet
    [ {| connection := ConnectionRefused; poll := None |};
      {| connection := SocketTimeout; poll := None |} ] /\
  spawn_server
    [ {| connection := ConnectionRefused; poll := None |};
      {| connection := SocketTimeout; poll := None |};
      {| connection := ConnectionRefused; poll := Some 1 |};
      {| connection := Connected; poll := None |} ]
  = Returned []
      (Raise (RuntimeError "launcher exited unexpectedly with code 1")).
Proof.
  assert (Hpre : Forall not_ready_yet
            [ {| connection := ConnectionRefused; poll := None |};
              {| connection := SocketTimeout; poll := None |} ]).
  { repeat (apply Forall_cons; [split; simpl; auto|]). apply Forall_nil. }
  split; [exact Hpre|].
  exact (proj1 (readiness_gate _
                  {| connection := ConnectionRefused; poll := Some 1 |}
                  [ {| connection := Connected; poll := None |} ] Hpre)
               1 (or_intror eq_refl) eq_refl).
Defined.

(** ** The statistics of a run *)

(** Every step of a computation that ends in [Ok] ended in [Ok]. *)
Ltac bind_ok H :=
  repeat match type of H with
         | bind ?m _ = Ok _ =>
             let E := fresh "E" in
             destruct m eqn:E; cbn [bind] in H; [|discriminate H]
         end.

Lemma float_truediv_ok (x y q : float) :
  float_truediv x y = Ok q -> q = (x / y)%float.
Proof.
  unfold float_truediv. destruct (y =? 0)%float; [discriminate|].
  now intros [= <-].
Qed.

Lemma float_truediv_raises (x y : float) (e : exn) :
  float_truediv x y = Raise e -> e = ZeroDivisionError.
Proof.
  unfold float_truediv. destruct (y =? 0)%float; [|discriminate].
  now intros [= <-].
Qed.

(** The steps of [run_statistics] and the mapping it returns. *)
Lemma run_statistics_ok (counter : Z) (duration down_scale : float)
    (dataset_chars : Z) (stats : dict) :
  run_statistics counter duration down_scale dataset_chars = Ok stats ->
  exists counter_f chars_per_s cps extrapolated ext td tps_seconds td_tps,
    float_of_int counter = Ok counter_f /\
    float_truediv counter_f duration = Ok chars_per_s /\
    int_of_float chars_per_s = Ok cps /\
    float_truediv duration down_scale = Ok extrapolated /\
    int_of_float extrapolated = Ok ext /\
    timedelta_of_int_seconds ext = Ok td /\
    int_truediv dataset_chars cps = Ok tps_seconds /\
    timedelta_of_float_seconds tps_seconds = Ok td_tps /\
    stats = [ ("downscale", VFloat down_scale);
              ("n_gpu", VInt 6);
              ("duration", VFloat duration);
              ("characters_per_second", VInt cps);
              ("extrapolated_duration", VInt ext);
              ("extrapolated_duration_fmt", VStr (timedelta_str td));
              ("extrapolated_duration_tps_fmt", VStr (timedelta_str td_tps))
            ]%string.
Proof.
  unfold run_statistics; intros H.
  bind_ok H.
  injection H as <-.
  repeat eexists; eassumption.
Qed.

Lemma embed_dataset_ok {char embedding} (w : @World char embedding)
    (down_scale : float) (trace : list event) (stats : dict) :
  embed_dataset w down_scale = (trace, Ok stats) ->
  exists batches counter,
    trace = [Dispatch batches] /\
    run_statistics counter (dispatch_end w - dispatch_start w)%float
      down_scale 19560538957 = Ok stats.
Proof.
  unfold embed_dataset.
  destruct (materialized_batchs w down_scale) as [batches|e];
    [|discriminate].
  intros [= <- H].
  bind_ok H.
  eauto.
Qed.

(** C8, as the code has it. The mapping returned by a run has exactly the
    seven fields downscale, n_gpu, duration, characters_per_second,
    extrapolated_duration, extrapolated_duration_fmt and
    extrapolated_duration_tps_fmt, in this order, each holding a number or
    a string. *)
Theorem run_report_fields {char embedding} (w : @World char embedding)
    (down_scale : float) (trace : list event) (stats : dict) :
  embed_dataset w down_scale = (trace, Ok stats) ->
  keys stats
  = [ "downscale"; "n_gpu"; "duration"; "characters_per_second";
      "extrapolated_duration"; "extrapolated_duration_fmt";
      "extrapolated_duration_tps_fmt" ]%string /\
  exists cps ext fmt tps_fmt,
    stats = [ ("downscale", VFloat down_scale);
              ("n_gpu", VInt N_GPU);
              ("duration",
               VFloat (dispatch_end w - dispatch_start w)%float);
              ("characters_per_second", VInt cps);
              ("extrapolated_duration", VInt ext);
              ("extrapolated_duration_fmt", VStr fmt);
              ("extrapolated_duration_tps_fmt", VStr tps_fmt) ]%string.
Proof.
  intros Hrun.
  apply embed_dataset_ok in Hrun as (batches & counter & _ & Hstats).
  apply run_statistics_ok in Hstats
    as (? & ? & cps & ? & ext & td & ? & td_tps & _ & _ & _ & _ & _ & _ & _ & _ & ->).
  split; [reflexivity|].
  repeat eexists.
Qed.

Lemma run_report_fields_witness :
  keys (match snd (embed_dataset one_row_world 1) with
        | Ok stats => stats
        | Raise _ => []
        end)
  = [ "downscale"; "n_gpu"; "duration"; "characters_per_second";
      "extrapolated_duration"; "extrapolated_duration_fmt";
      "extrapolated_duration_tps_fmt" ]%string.
Proof.
  destruct (embed_dataset one_row_world 1) as [trace [stats|e]] eqn:Hrun.
  - exact (proj1 (run_report_fields one_row_world 1 trace stats Hrun)).
  - vm_compute in Hrun. discriminate.
Defined.

(** C8, as the claim has it, fails: the report of a run has no field named
    down_scale. *)
Lemma run_report_has_no_down_scale_field :
  exists stats,
    snd (embed_dataset one_row_world 1) = Ok stats /\
    dict_get stats "down_scale" = None /\
    ~ In "down_scale"%string (keys stats).
Proof.
  eexists; split; [vm_compute; reflexivity|].
  split; [reflexivity|].
  simpl. intros H.
  repeat (destruct H as [H|H]; [discriminate H|]).
  exact H.
Qed.

(** C10. In the report of a run [extrapolated_duration] is the integer
    [int(duration / down_scale)]: the floating-point quotient with the
    digits after the point cut, which is its floor when the quotient is
    not negative; the [duration] field holds the measured float itself. *)
Theorem extrapolated_duration_is_truncated (counter : Z)
    (duration down_scale : float) (dataset_chars : Z) (stats : dict) :
  run_statistics counter duration down_scale dataset_chars = Ok stats ->
  exists n : Z,
    dict_get stats "extrapolated_duration" = Some (VInt n) /\
    int_of_float (duration / down_scale)%float = Ok n /\
    ((0 <= float_value (duration / down_scale)%float)%Q ->
     n = Qfloor (float_value (duration / down_scale)%float)) /\
    ((float_value (duration / down_scale)%float <= 0)%Q ->
     n = Qceiling (float_value (duration / down_scale)%float)) /\
    dict_get stats "duration" = Some (VFloat duration).
Proof.
  intros Hstats.
  apply run_statistics_ok in Hstats
    as (? & ? & cps & q & ext & td & ? & td_tps
        & _ & _ & _ & Hq & Hext & _ & _ & _ & ->).
  apply float_truediv_ok in Hq; subst q.
  exists ext. repeat split.
  - exact Hext.
  - now apply int_of_float_floor.
  - now apply int_of_float_ceiling.
Qed.

(** Half a second for the whole corpus: the quotient is 0.5, the field 0. *)
Lemma extrapolated_duration_is_truncated_witness :
  exists stats,
    run_statistics 1 0.5 1 10 = Ok stats /\
    float_value (0.5 / 1)%float == 1 # 2 /\
    dict_get stats "extrapolated_duration" = Some (VInt 0) /\
    dict_get stats "duration" = Some (VFloat 0.5).
Proof.
  destruct (run_statistics 1 0.5 1 10) as [stats|e] eqn:Hrun;
    [|vm_compute in Hrun; discriminate].
  exists stats.
  destruct (extrapolated_duration_is_truncated 1 0.5 1 10 stats Hrun)
    as (n & Hfield & Hint & _ & _ & Hduration).
  assert (Hn : n = 0) by (vm_compute in Hint; congruence).
  subst n.
  split; [reflexivity|].
  split; [reflexivity|].
  split; [exact Hfield | exact Hduration].
Defined.

(** C5, as the claim has it, fails: [extrapolated_duration] is not the
    quotient [total_duration / down_scale] when that is not whole. *)
Lemma extrapolated_duration_is_not_the_quotient :
  exists stats q,
    run_statistics 1 0.5 1 10 = Ok stats /\
    float_truediv 0.5 1 = Ok q /\
    dict_get stats "extrapolated_duration" = Some (VInt 0) /\
    ~ (inject_Z 0 == float_value q).
Proof.
  eexists; eexists.
  split; [vm_compute; reflexivity|].
  split; [vm_compute; reflexivity|].
  split; [reflexivity|].
  vm_compute. discriminate.
Qed.

(** C5, as the code has it. [characters_per_second] is
    [int(total_chars / total_duration)] and [extrapolated_duration] is
    [int(total_duration / down_scale)]: floating-point quotients cut to
    integers, their floors when they are not negative. For 50000
    characters in 10 seconds at a sampling fraction of 0.001 and a corpus
    of 50000000 characters the report holds 5000 characters per second,
    10000 seconds, and ["2:46:40"] for 50000000 / 5000 seconds. *)
Theorem aggregator_formulas :
  (forall (total_chars : Z) (total_duration down_scale : float)
          (full_corpus_char_count : Z) (stats : dict),
      run_statistics total_chars total_duration down_scale
        full_corpus_char_count = Ok stats ->
      exists (chars : float) (cps ext : Z),
        float_of_int total_chars = Ok chars /\
        dict_get stats "characters_per_second" = Some (VInt cps) /\
        int_of_float (chars / total_duration)%float = Ok cps /\
        ((0 <= float_value (chars / total_duration)%float)%Q ->
         cps = Qfloor (float_value (chars / total_duration)%float)) /\
        dict_get stats "extrapolated_duration" = Some (VInt ext) /\
        int_of_float (total_duration / down_scale)%float = Ok ext /\
        ((0 <= float_value (total_duration / down_scale)%float)%Q ->
         ext = Qfloor (float_value (total_duration / down_scale)%float)))
  /\
  run_statistics 50000 10 0.001 50000000
  = Ok [ ("downscale", VFloat 0.001);
         ("n_gpu", VInt 6);
         ("duration", VFloat 10);
         ("characters_per_second", VInt 5000);
         ("extrapolated_duration", VInt 10000);
         ("extrapolated_duration_fmt", VStr "2:46:40");
         ("extrapolated_duration_tps_fmt", VStr "2:46:40") ]%string
  /\
  (int_truediv 50000000 5000 = Ok 10000%float /\
   exists td, timedelta_of_float_seconds 10000 = Ok td /\
              timedelta_str td = "2:46:40"%string).
Proof.
  split; [|split; [vm_compute; reflexivity|]].
  - intros total_chars total_duration down_scale full_corpus_char_count
           stats Hstats.
    apply run_statistics_ok in Hstats
      as (chars & q1 & cps & q2 & ext & td & ? & td_tps
          & Hchars & Hq1 & Hcps & Hq2 & Hext & _ & _ & _ & ->).
    apply float_truediv_ok in Hq1, Hq2; subst q1 q2.
    exists chars, cps, ext.
    repeat split; try assumption.
    + now apply int_of_float_floor.
    + now apply int_of_float_floor.
  - split; [vm_compute; reflexivity|].
    eexists; split; vm_compute; reflexivity.
Qed.

(** The quotient is rounded to a float before it is cut: a tenth of a
    second is a float slightly above 1/10, so one character in that time
    is slightly under 10 characters per second, and the report says 10. *)
Example characters_per_second_of_rounded_quotient :
  exists stats,
    run_statistics 1 0.1 1 10 = Ok stats /\
    dict_get stats "characters_per_second" = Some (VInt 10) /\
    Qfloor (1 / float_value 0.1) = 9.
Proof.
  eexists; split; [vm_compute; reflexivity|].
  split; reflexivity.
Qed.

Lemma aggregator_formulas_witness :
  exists stats,
    run_statistics 50000 10 0.001 50000000 = Ok stats /\
    dict_get stats "characters_per_second" = Some (VInt 5000) /\
    dict_get stats "extrapolated_duration" = Some (VInt 10000).
Proof.
  destruct (run_statistics 50000 10 0.001 50000000) as [stats|e] eqn:Hrun;
    [|vm_compute in Hrun; discriminate].
  exists stats.
  destruct (proj1 aggregator_formulas 50000 10%float 0.001%float 50000000
              stats Hrun)
    as (chars & cps & ext & Hchars & Hf1 & Hcps & _ & Hf2 & Hext & _).
  assert (chars = 50000%float) by (vm_compute in Hchars; congruence).
  subst chars.
  assert (cps = 5000) by (vm_compute in Hcps; congruence).
  assert (ext = 10000) by (vm_compute in Hext; congruence).
  subst cps ext.
  repeat split; assumption.
Defined.

(** ** The sampling fraction is taken as it comes *)

Section ScaleFacts.

Context {char embedding : Type}.
Implicit Types (w : @World char embedding).

(** With a sampling fraction of zero the sample is empty and there is
    nothing to batch. *)
Lemma materialized_batchs_zero w (ttl_size_f : float) :
  float_of_int (Z.of_nat (length (train w))) = Ok ttl_size_f ->
  materialized_batchs w 0 = Ok [].
Proof.
  intros Hsize. unfold materialized_batchs.
  rewrite Hsize; cbn [bind].
  rewrite int_of_float_mul_zero by (eapply float_of_int_finite; eassumption).
  reflexivity.
Qed.

(** The statistics of a run that counted nothing at a sampling fraction of
    zero: one of the two divisions by zero is reached. *)
Lemma run_statistics_zero (duration : float) (dataset_chars : Z) :
  is_nan duration = false ->
  run_statistics 0 duration 0 dataset_chars = Raise ZeroDivisionError.
Proof.
  intros Hnan. unfold run_statistics.
  replace (float_of_int 0) with (Ok 0%float) by reflexivity; cbn [bind].
  destruct (float_truediv 0 duration) as [q|e] eqn:Hq; cbn [bind].
  - rewrite (int_of_float_zero_div duration q Hnan Hq); cbn [bind].
    reflexivity.
  - now rewrite (float_truediv_raises _ _ _ Hq).
Qed.

(** On a dataset of one row, 1.5 asks for [int(1.0 * 1.5) = 1] row. *)
Lemma materialized_batchs_one_row w (r : TextRecord char) :
  train w = [r] ->
  materialized_batchs w 1.5 = materialized_batchs w 1 /\
  exists batches, materialized_batchs w 1.5 = Ok batches.
Proof.
  intros Htrain. unfold materialized_batchs. rewrite Htrain.
  change (float_of_int (Z.of_nat (length [r]))) with (float_of_int 1).
  replace (float_of_int 1) with (Ok 1%float) by reflexivity; cbn [bind].
  replace (int_of_float (1 * 1.5)) with (@Ok Z 1) by reflexivity.
  replace (int_of_float (1 * 1)) with (@Ok Z 1) by reflexivity.
  split; [reflexivity|].
  cbn [bind].
  replace (range 0 1 1) with (Ok [0]) by reflexivity; cbn [bind].
  change (select [r] [0]) with (Ok [r]); cbn [bind].
  destruct r as [t].
  rewrite generate_chunks_single by lia; cbn [bind].
  eexists; reflexivity.
Qed.

(** The driver batches by [BATCH_SIZE]: whatever the sample, no batch it
    dispatches has more than 128 chunks and every batch but the last has
    exactly 128. *)
Lemma materialized_batchs_by_128 w (down_scale : float)
    (batches : list (list (list char))) :
  materialized_batchs w down_scale = Ok batches ->
  Forall (fun b => Z.of_nat (length b) <= 128) batches /\
  (forall i b, nth_error batches i = Some b ->
     (S i < length batches)%nat ->
     Z.of_nat (length b) = 128).
Proof.
  unfold materialized_batchs; intros H.
  bind_ok H. injection H as <-.
  unfold generate_batches; simpl.
  split.
  - apply generate_batches_loop_bounded; simpl; reflexivity.
  - apply generate_batches_loop_full; simpl; reflexivity.
Qed.

(** C4, as the code has it. The driver never checks [down_scale] against
    (0, 1]. With [down_scale = 0] the sample is empty, the empty list of
    batches is dispatched, and only then the run stops, with a
    [ZeroDivisionError] from the statistics. With [down_scale = 1.5] on a
    dataset of one row the run takes the same sample as with 1 and
    dispatches it. *)
Theorem down_scale_is_not_validated :
  (forall w (ttl_size_f : float),
      float_of_int (Z.of_nat (length (train w))) = Ok ttl_size_f ->
      is_nan (dispatch_end w - dispatch_start w)%float = false ->
      embed_dataset w 0 = ([Dispatch []], Raise ZeroDivisionError))
  /\
  (forall w (r : TextRecord char),
      train w = [r] ->
      fst (embed_dataset w 1.5) = fst (embed_dataset w 1) /\
      exists batches, fst (embed_dataset w 1.5) = [Dispatch batches]).
Proof.
  split.
  - intros w ttl_size_f Hsize Hnan. unfold embed_dataset.
    rewrite (materialized_batchs_zero w ttl_size_f Hsize).
    cbn [map_ordered bind combine fold_left].
    now rewrite run_statistics_zero.
  - intros w r Htrain.
    destruct (materialized_batchs_one_row w r Htrain) as [Hsame [batches Hb]].
    unfold embed_dataset. rewrite <- Hsame, Hb; simpl.
    split; [reflexivity|eauto].
Qed.

End ScaleFacts.

Lemma down_scale_is_not_validated_witness :
  embed_dataset one_row_world 0 = ([Dispatch []], Raise ZeroDivisionError).
Proof.
  apply (proj1 down_scale_is_not_validated one_row_world 1%float);
    reflexivity.
Defined.

(** C4, as the claim has it, fails: on a dataset of one row a run with
    [down_scale = 1.5] is not turned down; it dispatches its batch and
    returns its report. *)
Lemma scale_above_one_is_not_rejected :
  ~ rejected_before_dispatch (embed_dataset one_row_world 1.5) /\
  exists batches stats,
    embed_dataset one_row_world 1.5 = ([Dispatch batches], Ok stats).
Proof.
  split.
  - intros [Hfst _]. vm_compute in Hfst. discriminate.
  - eexists; eexists. vm_compute. reflexivity.
Qed.

(** Nor is a run with [down_scale = 0] turned down before the dispatch. *)
Lemma scale_zero_is_not_rejected_before_dispatch :
  ~ rejected_before_dispatch (embed_dataset one_row_world 0).
Proof.
  intros [Hfst _]. vm_compute in Hfst. discriminate.
Qed.

(* ===================================================================== *)
(** * Further properties of the generators                                *)
(* ===================================================================== *)

(** ** The batcher cuts windows *)

Section BatcherWindows.

Context {X : Type}.
Implicit Types (xs ys batch : list X) (batch_size : Z).

(** How the loop completes the batch it is filling: with too little input
    left the remainder is the only batch; otherwise the batch is topped up
    from the input and the loop starts afresh behind it. *)
Lemma generate_batches_loop_fill xs batch batch_size :
  Z.of_nat (length batch) < batch_size ->
  (Z.of_nat (length batch + length xs) < batch_size ->
   generate_batches_loop xs batch batch_size
   = match batch ++ xs with [] => [] | _ :: _ => [batch ++ xs] end) /\
  (batch_size <= Z.of_nat (length batch + length xs) ->
   generate_batches_loop xs batch batch_size
   = (batch ++ firstn (Z.to_nat batch_size - length batch) xs)
     :: generate_batches_loop
          (skipn (Z.to_nat batch_size - length batch) xs) [] batch_size).
Proof.
  revert batch; induction xs as [|x xs IH]; intros batch Hlt.
  - split; intros H; simpl in *; [|lia].
    rewrite app_nil_r. reflexivity.
  - cbn [generate_batches_loop].
    assert (Hlen : length (batch ++ [x]) = S (length batch))
      by (rewrite length_app; simpl; lia).
    destruct (Z.eqb_spec (Z.of_nat (length (batch ++ [x]))) batch_size)
      as [Hfull|Hshort].
    + split; intros H; simpl in H; [lia|].
      replace (Z.to_nat batch_size - length batch)%nat with 1%nat by lia.
      reflexivity.
    + destruct (IH (batch ++ [x]) ltac:(lia)) as [IHshort IHlong].
      split; intros H; simpl in H.
      * rewrite IHshort by lia. now rewrite <- app_assoc.
      * rewrite IHlong by lia.
        replace (Z.to_nat batch_size - length batch)%nat
          with (S (Z.to_nat batch_size - length (batch ++ [x])))%nat by lia.
        simpl. now rewrite <- app_assoc.
Qed.

Lemma chunk_count_small (len batch_size : Z) :
  0 < len < batch_size -> chunk_count len batch_size = 1%nat.
Proof.
  intros H. unfold chunk_count.
  replace (len + batch_size - 1) with (len - 1 + 1 * batch_size) by lia.
  rewrite Z.div_add, Z.div_small by lia. reflexivity.
Qed.

Lemma chunk_count_step (len batch_size : Z) :
  0 < batch_size <= len ->
  chunk_count len batch_size = S (chunk_count (len - batch_size) batch_size).
Proof.
  intros H. unfold chunk_count.
  replace (len + batch_size - 1)
    with (len - batch_size + batch_size - 1 + 1 * batch_size) by lia.
  rewrite Z.div_add by lia.
  rewrite Z2Nat.inj_add; [simpl; lia| |lia].
  apply Z.div_pos; lia.
Qed.

(** The batches are the consecutive windows of [batch_size] elements. *)
Lemma generate_batches_loop_windows (n : nat) xs batch_size :
  0 < batch_size ->
  (length xs <= n)%nat ->
  generate_batches_loop xs [] batch_size
  = map (fun i => firstn (Z.to_nat batch_size)
                         (skipn (i * Z.to_nat batch_size) xs))
        (seq 0 (chunk_count (Z.of_nat (length xs)) batch_size)).
Proof.
  intros Hpos. revert xs; induction n as [|n IH]; intros xs Hn.
  - destruct xs; [|simpl in Hn; lia].
    unfold chunk_count; simpl.
    now rewrite Z.div_small by lia.
  - destruct (generate_batches_loop_fill xs [] batch_size ltac:(simpl; lia))
      as [Hshort Hlong]; simpl in Hshort, Hlong.
    destruct (Z.lt_ge_cases (Z.of_nat (length xs)) batch_size) as [Hlt|Hge].
    + rewrite Hshort by exact Hlt.
      destruct xs as [|x xs].
      * unfold chunk_count; simpl. now rewrite Z.div_small by lia.
      * rewrite chunk_count_small by (simpl length in *; lia).
        simpl. rewrite firstn_all2 by (simpl length in *; lia). reflexivity.
    + rewrite Hlong by exact Hge.
      rewrite Nat.sub_0_r.
      rewrite chunk_count_step by lia.
      rewrite IH by (rewrite length_skipn; lia).
      rewrite length_skipn.
      replace (Z.of_nat (length xs - Z.to_nat batch_size))
        with (Z.of_nat (length xs) - batch_size) by lia.
      cbn [seq map]. f_equal.
      rewrite <- seq_shift, map_map.
      apply map_ext; intros i.
      rewrite skipn_skipn. do 2 f_equal. lia.
Qed.

(** When the pending batch and the input together make whole batches, what
    follows is batched as if on its own. *)
Lemma generate_batches_loop_app xs ys batch batch_size (k : Z) :
  0 < batch_size ->
  Z.of_nat (length batch) < batch_size ->
  Z.of_nat (length batch + length xs) = k * batch_size ->
  generate_batches_loop (xs ++ ys) batch batch_size
  = generate_batches_loop xs batch batch_size
    ++ generate_batches_loop ys [] batch_size.
Proof.
  intros Hpos. revert batch k; induction xs as [|x xs IH]; intros batch k Hlt Hk.
  - simpl. rewrite Nat.add_0_r in Hk.
    assert (k = 0) by nia.
    assert (length batch = 0)%nat by lia.
    destruct batch; [reflexivity|discriminate].
  - cbn [generate_batches_loop app].
    assert (Hlen : length (batch ++ [x]) = S (length batch))
      by (rewrite length_app; simpl; lia).
    simpl in Hk.
    destruct (Z.eqb_spec (Z.of_nat (length (batch ++ [x]))) batch_size)
      as [Hfull|Hshort].
    + rewrite (IH [] (k - 1)) by (simpl; lia). reflexivity.
    + apply (IH (batch ++ [x]) k); lia.
Qed.

End BatcherWindows.

Section BatcherExtras.

Context {X : Type}.
Implicit Types (xs ys batch : list X) (batch_size : Z).

(** With a batch size that is never reached the loop only accumulates. *)
Lemma generate_batches_loop_never_full xs batch batch_size :
  batch_size <= 0 ->
  generate_batches_loop xs batch batch_size
  = match batch ++ xs with [] => [] | _ :: _ => [batch ++ xs] end.
Proof.
  intros Hle. revert batch; induction xs as [|x xs IH]; intros batch; simpl.
  - now rewrite app_nil_r.
  - destruct (Z.eqb_spec (Z.of_nat (length (batch ++ [x]))) batch_size)
      as [Hfull|_].
    + rewrite length_app in Hfull; simpl in Hfull; lia.
    + rewrite IH. now rewrite <- app_assoc.
Qed.

(** X1. For a positive [batch_size] there are [ceil(n / batch_size)]
    batches for [n] inputs, and batch [i] is the slice
    [xs[i * batch_size : i * batch_size + batch_size]]. *)
Theorem batcher_windows xs batch_size :
  0 < batch_size ->
  Z.of_nat (length (generate_batches xs (Some batch_size)))
  = (Z.of_nat (length xs) + batch_size - 1) / batch_size /\
  (forall i b,
     nth_error (generate_batches xs (Some batch_size)) i = Some b ->
     b = slice xs (Z.of_nat i * batch_size)
                  (Z.of_nat i * batch_size + batch_size)).
Proof.
  intros Hpos. unfold generate_batches; simpl.
  rewrite (generate_batches_loop_windows (length xs)) by (assumption || lia).
  split.
  - rewrite length_map, length_seq. unfold chunk_count.
    apply Z2Nat.id, Z.div_pos; lia.
  - intros i b Hb.
    apply nth_error_map_seq in Hb as [_ ->].
    rewrite <- (slice_window xs (i * Z.to_nat batch_size) (Z.to_nat batch_size)).
    rewrite Nat2Z.inj_mul, Z2Nat.id by lia.
    reflexivity.
Qed.

(** X2. Batching is streamable at batch boundaries: when the first part of
    the input fills whole batches, the batches of the whole input are
    those of the first part followed by those of the rest. *)
Theorem batcher_append xs ys batch_size (k : Z) :
  0 < batch_size ->
  Z.of_nat (length xs) = k * batch_size ->
  generate_batches (xs ++ ys) (Some batch_size)
  = generate_batches xs (Some batch_size)
    ++ generate_batches ys (Some batch_size).
Proof.
  intros Hpos Hk. unfold generate_batches; simpl.
  apply (generate_batches_loop_app xs ys [] batch_size k); simpl; lia.
Qed.

(** X3. A batch size of zero or less is never reached, and one larger than
    the input is not reached either: all the input comes out as a single
    batch, and no batch at all when there is no input. *)
Theorem batcher_single_batch xs batch_size :
  batch_size <= 0 \/ Z.of_nat (length xs) < batch_size ->
  generate_batches xs (Some batch_size)
  = match xs with [] => [] | _ :: _ => [xs] end.
Proof.
  unfold generate_batches; simpl. intros [Hle|Hlt].
  - now rewrite generate_batches_loop_never_full.
  - destruct (generate_batches_loop_fill xs [] batch_size ltac:(simpl; lia))
      as [Hshort _].
    apply Hshort. simpl. lia.
Qed.

End BatcherExtras.

Lemma batcher_windows_witness :
  0 < 2 /\
  Z.of_nat (length (generate_batches [1; 2; 3; 4; 5] (Some 2))) = 3.
Proof.
  split; [lia|].
  exact (proj1 (batcher_windows [1; 2; 3; 4; 5] 2 ltac:(lia))).
Defined.

Lemma batcher_append_witness :
  Z.of_nat (length [1; 2; 3; 4]) = 2 * 2 /\
  generate_batches ([1; 2; 3; 4] ++ [5; 6; 7]) (Some 2)
  = generate_batches [1; 2; 3; 4] (Some 2) ++ generate_batches [5; 6; 7] (Some 2).
Proof.
  split; [reflexivity|].
  apply (batcher_append [1; 2; 3; 4] [5; 6; 7] 2 2); [lia|reflexivity].
Defined.

Lemma batcher_single_batch_witness :
  generate_batches [1; 2; 3] (Some 0) = [[1; 2; 3]] /\
  generate_batches [1; 2; 3] (Some 7) = [[1; 2; 3]].
Proof.
  split.
  - apply (batcher_single_batch [1; 2; 3] 0). left; lia.
  - apply (batcher_single_batch [1; 2; 3] 7). right; simpl; lia.
Defined.

(** ** The chunker on whole datasets and at the edges *)

Section ChunkerExtras.

Context {char : Type}.
Implicit Types (xs : list (TextRecord char)) (chunk_size : Z).

(** The chunks of a dataset, row by row, as windows. *)
Lemma generate_chunks_loop_windows xs chunk_size :
  0 < chunk_size ->
  generate_chunks_from_dataset_loop xs chunk_size
  = Ok (concat
          (map (fun r =>
                  map (fun i => firstn (Z.to_nat chunk_size)
                                       (skipn (i * Z.to_nat chunk_size) (text r)))
                      (seq 0 (chunk_count (Z.of_nat (length (text r)))
                                          chunk_size)))
               xs)).
Proof.
  intros Hpos. induction xs as [|r xs IH]; simpl.
  - reflexivity.
  - rewrite IH, chunks_of_text_windows by assumption. reflexivity.
Qed.

(** X4. The chunker and the batcher cut alike: for a positive size the
    chunks of a dataset are, row after row, the batches the batcher makes
    of the characters of the row. *)
Theorem chunker_cuts_like_batcher xs chunk_size :
  0 < chunk_size ->
  generate_chunks_from_dataset xs (Some chunk_size)
  = Ok (concat (map (fun r => generate_batches (text r) (Some chunk_size)) xs)).
Proof.
  intros Hpos. unfold generate_chunks_from_dataset, generate_batches; simpl.
  rewrite generate_chunks_loop_windows by assumption.
  do 2 f_equal. apply map_ext; intros r.
  symmetry. apply (generate_batches_loop_windows (length (text r))); [assumption|lia].
Qed.

(** X5. For a positive [chunk_size] the chunks of a whole dataset,
    concatenated, are the texts of the rows concatenated in source order;
    no chunk is empty or longer than [chunk_size]; and their number is the
    sum over the rows of [ceil(len(text) / chunk_size)]. *)
Theorem chunker_dataset_integrity xs chunk_size :
  0 < chunk_size ->
  exists chunks : list (list char),
    generate_chunks_from_dataset xs (Some chunk_size) = Ok chunks /\
    concat chunks = concat (map text xs) /\
    Forall (fun c => c <> [] /\ Z.of_nat (length c) <= chunk_size) chunks /\
    Z.of_nat (length chunks)
    = fold_right
        (fun r total =>
           (Z.of_nat (length (text r)) + chunk_size - 1) / chunk_size + total)
        0 xs.
Proof.
  intros Hpos.
  destruct (generate_chunks_dataset xs chunk_size Hpos)
    as (chunks & Hrun & Hcat & Hall).
  exists chunks. repeat split; try assumption.
  unfold generate_chunks_from_dataset in Hrun; simpl in Hrun.
  rewrite generate_chunks_loop_windows in Hrun by assumption.
  injection Hrun as <-.
  clear Hcat Hall. induction xs as [|r xs IH]; simpl.
  - reflexivity.
  - rewrite length_app, Nat2Z.inj_add, IH, length_map, length_seq.
    unfold chunk_count. rewrite Z2Nat.id by (apply Z.div_pos; lia).
    reflexivity.
Qed.

(** X6. The edges of [chunk_size]: with 0 the first row raises
    [ValueError] (and an empty dataset gives an empty stream); with a
    negative size nothing is raised and nothing is emitted, whatever the
    texts. *)
Theorem chunker_nonpositive_size xs chunk_size :
  (chunk_size = 0 ->
   generate_chunks_from_dataset xs (Some chunk_size)
   = match xs with [] => Ok [] | _ :: _ => Raise ValueError end) /\
  (chunk_size < 0 ->
   generate_chunks_from_dataset xs (Some chunk_size) = Ok []).
Proof.
  unfold generate_chunks_from_dataset; simpl. split.
  - intros ->. destruct xs; reflexivity.
  - intros Hneg. induction xs as [|r xs IH]; simpl.
    + reflexivity.
    + rewrite IH. unfold chunks_of_text, range, range_len.
      destruct (Z.eqb_spec chunk_size 0) as [|_]; [lia|].
      destruct (Z.ltb_spec 0 chunk_size) as [|_]; [lia|].
      destruct (Z.ltb_spec (Z.of_nat (length (text r))) 0) as [|_]; [lia|].
      reflexivity.
Qed.

End ChunkerExtras.

Lemma chunker_cuts_like_batcher_witness :
  0 < 2 /\
  generate_chunks_from_dataset
    [ {| text := [1; 2; 3] |}; {| text := [4; 5] |} ] (Some 2)
  = Ok [[1; 2]; [3]; [4; 5]].
Proof.
  split; [lia|].
  apply (chunker_cuts_like_batcher
           [ {| text := [1; 2; 3] |}; {| text := [4; 5] |} ] 2). lia.
Defined.

Lemma chunker_dataset_integrity_witness :
  0 < 2 /\
  exists chunks,
    generate_chunks_from_dataset
      [ {| text := [1; 2; 3] |}; {| text := [4; 5] |} ] (Some 2) = Ok chunks /\
    Z.of_nat (length chunks) = 3.
Proof.
  split; [lia|].
  destruct (chunker_dataset_integrity
              [ {| text := [1; 2; 3] |}; {| text := [4; 5] |} ] 2 ltac:(lia))
    as (chunks & Hrun & _ & _ & Hcount).
  exists chunks. split; [exact Hrun|exact Hcount].
Defined.

Lemma chunker_nonpositive_size_witness :
  generate_chunks_from_dataset [ {| text := [1; 2; 3] |} ] (Some 0)
  = Raise ValueError /\
  generate_chunks_from_dataset [ {| text := [1; 2; 3] |} ] (Some (-2))
  = Ok [].
Proof.
  split.
  - exact (proj1 (chunker_nonpositive_size [ {| text := [1; 2; 3] |} ] 0)
                 eq_refl).
  - exact (proj2 (chunker_nonpositive_size [ {| text := [1; 2; 3] |} ] (-2))
                 eq_refl).
Defined.

(* ===================================================================== *)
(** * Further properties of the readiness gate                            *)
(* ===================================================================== *)

(** X7. The gate has no retry limit and no deadline: it is still polling
    after a series of observations exactly when on every one of them the
    connection was refused or timed out and the process was running. *)
Theorem readiness_gate_keeps_polling (world : list probe) :
  spawn_server world = Polling <-> Forall not_ready_yet world.
Proof.
  unfold spawn_server. induction world as [|p world IH]; simpl.
  - split; [constructor|reflexivity].
  - unfold not_ready_yet in *. split.
    + intros H. destruct (connection p) eqn:Hc; try discriminate;
        (destruct (poll p) eqn:Hp; [discriminate|]);
        (constructor; [auto|apply IH; exact H]).
    + intros H. inversion H as [|? ? [Hc Hp] Hrest]; subst.
      rewrite Hp. destruct Hc as [-> | ->]; apply IH; exact Hrest.
Qed.

(** X8. What an end of the gate means. It ends at the first observation
    that is not "unreachable and running", and then: it returns the
    launched process, after printing the ready line, only if the
    connection succeeded; it raises the [RuntimeError] with the exit code
    only if the connection was refused or timed out and the process had
    exited; any other exception is the one the connection attempt raised. *)
Theorem readiness_gate_ends (world : list probe) (stdout : list string)
    (r : result Popen) :
  spawn_server world = Returned stdout r ->
  exists pre p rest,
    world = pre ++ p :: rest /\
    Forall not_ready_yet pre /\
    ((connection p = Connected /\
      stdout = ["Webserver ready!"%string] /\
      r = Ok {| args := "text-embeddings-router"%string :: LAUNCH_FLAGS |})
     \/
     ((connection p = SocketTimeout \/ connection p = ConnectionRefused) /\
      exists c, poll p = Some c /\
        stdout = [] /\
        r = Raise (RuntimeError
                     ("launcher exited unexpectedly with code " ++ dec c)%string))
     \/
     (exists e, connection p = ConnectError e /\ stdout = [] /\ r = Raise e)).
Proof.
  unfold spawn_server. induction world as [|p world IH]; simpl.
  - discriminate.
  - intros H.
    assert (Hlater :
        (connection p = SocketTimeout \/ connection p = ConnectionRefused) ->
        poll p = None ->
        spawn_server_loop
          {| args := "text-embeddings-router"%string :: LAUNCH_FLAGS |} world
        = Returned stdout r ->
        exists pre p0 rest,
          p :: world = pre ++ p0 :: rest /\ Forall not_ready_yet pre /\
          ((connection p0 = Connected /\
            stdout = ["Webserver ready!"%string] /\
            r = Ok {| args := "text-embeddings-router"%string :: LAUNCH_FLAGS |})
           \/
           ((connection p0 = SocketTimeout \/ connection p0 = ConnectionRefused) /\
            exists c, poll p0 = Some c /\
              stdout = [] /\
              r = Raise (RuntimeError
                           ("launcher exited unexpectedly with code " ++ dec c)%string))
           \/
           (exists e, connection p0 = ConnectError e /\ stdout = [] /\ r = Raise e))).
    { intros Hc Hp Hrun.
      destruct (IH Hrun) as (pre & p0 & rest & -> & Hpre & Hend).
      exists (p :: pre), p0, rest.
      split; [reflexivity|].
      split; [constructor; [split; assumption|exact Hpre]|exact Hend]. }
    destruct (connection p) eqn:Hc.
    + injection H as <- <-.
      exists [], p, world. split; [reflexivity|]. split; [constructor|].
      left. auto.
    + destruct (poll p) as [c|] eqn:Hp.
      * injection H as <- <-.
        exists [], p, world. split; [reflexivity|]. split; [constructor|].
        right; left. split; [auto|]. exists c. auto.
      * apply Hlater; auto.
    + destruct (poll p) as [c|] eqn:Hp.
      * injection H as <- <-.
        exists [], p, world. split; [reflexivity|]. split; [constructor|].
        right; left. split; [auto|]. exists c. auto.
      * apply Hlater; auto.
    + injection H as <- <-.
      exists [], p, world. split; [reflexivity|]. split; [constructor|].
      right; right. exists e. auto.
Qed.

Lemma readiness_gate_ends_witness :
  exists pre p rest,
    [ {| connection := SocketTimeout; poll := None |};
      {| connection := Connected; poll := Some 0 |} ]
    = pre ++ p :: rest /\
    Forall not_ready_yet pre.
Proof.
  destruct (readiness_gate_ends
              [ {| connection := SocketTimeout; poll := None |};
                {| connection := Connected; poll := Some 0 |} ]
              ["Webserver ready!"%string]
              (Ok {| args := "text-embeddings-router"%string :: LAUNCH_FLAGS |})
              eq_refl)
    as (pre & p & rest & Hsplit & Hpre & _).
  exists pre, p, rest. split; assumption.
Defined.

(* ===================================================================== *)
(** * Further properties of the driver                                    *)
(* ===================================================================== *)

(** [range(n)] counts from 0 up to [n], and not at all for [n <= 0]. *)
Lemma range_upto (n : Z) :
  range 0 n 1 = Ok (map Z.of_nat (seq 0 (Z.to_nat n))).
Proof.
  unfold range, range_len.
  change (1 =? 0) with false. change (0 <? 1) with true. cbv iota.
  destruct (Z.ltb_spec 0 n) as [Hpos|Hle].
  - rewrite Z.div_1_r.
    replace (1 + (n - 1 - 0)) with n by lia.
    f_equal. apply map_ext; intros i. lia.
  - replace (Z.to_nat n) with 0%nat by lia. reflexivity.
Qed.

Lemma skipn_nth_error {A} (rows : list A) (k : nat) (row : A) :
  nth_error rows k = Some row -> skipn k rows = row :: skipn (S k) rows.
Proof.
  revert k; induction rows as [|a rows IH]; intros [|k]; simpl;
    try discriminate.
  - now intros [= ->].
  - intros H. now rewrite (IH k H).
Qed.

(** Selecting a run of consecutive positions gives that stretch of the
    rows, whole. *)
Lemma select_consecutive {A} (rows : list A) (k m : nat) (subset : list A) :
  select rows (map Z.of_nat (seq k m)) = Ok subset ->
  subset = firstn m (skipn k rows) /\ length subset = m.
Proof.
  revert k subset; induction m as [|m IH]; intros k subset; simpl.
  - intros [= <-]. split; reflexivity.
  - destruct (Z.ltb_spec (Z.of_nat k) 0) as [|_]; [lia|].
    rewrite Nat2Z.id.
    destruct (nth_error rows k) as [row|] eqn:Hrow; [|discriminate].
    destruct (select rows (map Z.of_nat (seq (S k) m))) as [rest|] eqn:Hrest;
      [|discriminate].
    simpl. intros [= <-].
    destruct (IH (S k) rest Hrest) as [Hsub Hlen].
    split.
    + rewrite (skipn_nth_error rows k row Hrow).
      cbn [firstn]. now rewrite <- Hsub.
    + cbn [length]. now rewrite Hlen.
Qed.

Lemma sum_of_lengths {A} (texts : list (list A)) (acc : Z) :
  fold_left Z.add (map (fun t => Z.of_nat (length t)) texts) acc
  = acc + Z.of_nat (length (concat texts)).
Proof.
  revert acc; induction texts as [|t texts IH]; intros acc; simpl.
  - lia.
  - rewrite IH, length_app. lia.
Qed.

Lemma int_of_float_raises (x : float) (e : exn) :
  int_of_float x = Raise e -> e = ValueError \/ e = OverflowError.
Proof.
  unfold int_of_float.
  destruct (Prim2SF x); intros [= <-]; auto.
Qed.

Lemma timedelta_of_int_seconds_raises (n : Z) (e : exn) :
  timedelta_of_int_seconds n = Raise e -> e = OverflowError.
Proof.
  unfold timedelta_of_int_seconds, timedelta_of_microseconds.
  destruct (_ <? _); [|discriminate]. now intros [= <-].
Qed.

(** Whatever [0.0 / d] is cut to, it is 0. *)
Lemma int_of_float_zero_quotient (d q : float) (n : Z) :
  float_truediv 0 d = Ok q -> int_of_float q = Ok n -> n = 0.
Proof.
  intros Hq. apply float_truediv_ok in Hq; subst q.
  unfold int_of_float. rewrite FloatAxioms.div_spec.
  replace (Prim2SF 0%float) with (S754_zero false) by reflexivity.
  destruct (Prim2SF d); simpl; intros [= <-]; reflexivity.
Qed.

(** With no character counted no report comes out: the run ends in one of
    the divisions by zero, or earlier in a conversion. *)
Lemma run_statistics_nothing_counted (duration down_scale : float)
    (dataset_chars : Z) :
  exists e,
    run_statistics 0 duration down_scale dataset_chars = Raise e /\
    (e = ZeroDivisionError \/ e = ValueError \/ e = OverflowError).
Proof.
  unfold run_statistics.
  replace (float_of_int 0) with (Ok 0%float) by reflexivity; cbn [bind].
  destruct (float_truediv 0 duration) as [q|e] eqn:Hq; cbn [bind];
    [|apply float_truediv_raises in Hq; eauto].
  destruct (int_of_float q) as [cps|e] eqn:Hcps; cbn [bind];
    [|apply int_of_float_raises in Hcps; exists e; tauto].
  rewrite (int_of_float_zero_quotient duration q cps Hq Hcps).
  destruct (float_truediv duration down_scale) as [q2|e] eqn:Hq2; cbn [bind];
    [|apply float_truediv_raises in Hq2; eauto].
  destruct (int_of_float q2) as [ext|e] eqn:Hext; cbn [bind];
    [|apply int_of_float_raises in Hext; exists e; tauto].
  destruct (timedelta_of_int_seconds ext) as [td|e] eqn:Htd; cbn [bind];
    [|apply timedelta_of_int_seconds_raises in Htd; eauto].
  exists ZeroDivisionError. split; [reflexivity|auto].
Qed.

Lemma spawn_server_loop_process (process p : Popen) (world : list probe)
    (stdout : list string) :
  spawn_server_loop process world = Returned stdout (Ok p) -> p = process.
Proof.
  induction world as [|q world IH]; simpl; [discriminate|].
  destruct (connection q).
  - now intros [= _ <-].
  - destruct (poll q); [discriminate|exact IH].
  - destruct (poll q); [discriminate|exact IH].
  - discriminate.
Qed.

Section DriverExtras.

Context {char embedding : Type}.
Implicit Types (w : @World char embedding).

Lemma materialized_batchs_sample w (down_scale : float)
    (batches : list (list (list char))) :
  materialized_batchs w down_scale = Ok batches ->
  exists (ttl_size_f : float) (sample_size : Z),
    float_of_int (Z.of_nat (length (train w))) = Ok ttl_size_f /\
    int_of_float (ttl_size_f * down_scale)%float = Ok sample_size /\
    sample_size <= Z.of_nat (length (train w)) /\
    concat (concat batches)
    = concat (map text (firstn (Z.to_nat sample_size) (train w))).
Proof.
  unfold materialized_batchs; intros H.
  destruct (float_of_int _) as [ttl_size_f|] eqn:Hf; [|discriminate].
  cbn [bind] in H.
  destruct (int_of_float _) as [sample_size|] eqn:Hn; [|discriminate].
  cbn [bind] in H.
  rewrite range_upto in H; cbn [bind] in H.
  destruct (select _ _) as [subset|] eqn:Hsel; [|discriminate].
  cbn [bind] in H.
  apply select_consecutive in Hsel as [Hsub Hlen]; simpl in Hsub.
  destruct (generate_chunks_dataset subset 400 ltac:(lia))
    as (chunks & Hchunks & Hcat & _).
  rewrite Hchunks in H; cbn [bind] in H. injection H as <-.
  exists ttl_size_f, sample_size.
  split; [reflexivity|]. split; [exact Hn|]. split.
  - rewrite Hsub, length_firstn in Hlen. lia.
  - unfold generate_batches. rewrite generate_batches_loop_concat; simpl.
    now rewrite Hcat, Hsub.
Qed.

(** X9. The batches a run dispatches carry, in source order and with
    nothing lost or added, the text of the first [int(ttl_size *
    down_scale)] rows of the dataset, and that number of rows is never
    more than the dataset has. *)
Theorem driver_sample_integrity w (down_scale : float)
    (batches : list (list (list char))) :
  materialized_batchs w down_scale = Ok batches ->
  exists (ttl_size_f : float) (sample_size : Z),
    float_of_int (Z.of_nat (length (train w))) = Ok ttl_size_f /\
    int_of_float (ttl_size_f * down_scale)%float = Ok sample_size /\
    sample_size <= Z.of_nat (length (train w)) /\
    concat (concat batches)
    = concat (map text (firstn (Z.to_nat sample_size) (train w))).
Proof. apply materialized_batchs_sample. Qed.

Lemma counter_total w (batches : list (list (list char)))
    (outputs : list (list embedding * Z)) (acc : Z) :
  map_ordered (embed w) batches = Ok outputs ->
  length outputs = length batches /\
  fold_left (fun counter '(_, (_, n_chars)) => counter + n_chars)
            (combine batches outputs) acc
  = acc + Z.of_nat (length (concat (concat batches))).
Proof.
  revert outputs acc; induction batches as [|b batches IH];
    intros outputs acc; simpl.
  - intros [= <-]; simpl. split; [reflexivity|lia].
  - unfold embed at 1.
    destruct (endpoint w b) as [embeddings|]; [|discriminate]; cbn [bind].
    destruct (map_ordered (embed w) batches) as [rest|] eqn:Hrest;
      [|discriminate]; cbn [bind].
    intros [= <-]; simpl.
    destruct (IH rest (acc + fold_left Z.add
                               (map (fun t => Z.of_nat (length t)) b) 0)
                 eq_refl) as [Hlen Hsum].
    split; [now rewrite Hlen|].
    rewrite Hsum, sum_of_lengths, concat_app, length_app. lia.
Qed.

(** X10. When the endpoint answers every batch, there is one output per
    batch and the statistics are computed from exactly the number of
    characters in the dispatched batches, the time between the two clock
    readings, the fraction given, and the constant 19560538957. *)
Theorem driver_counts_dispatched_characters w (down_scale : float)
    (batches : list (list (list char)))
    (outputs : list (list embedding * Z)) :
  materialized_batchs w down_scale = Ok batches ->
  map_ordered (embed w) batches = Ok outputs ->
  length outputs = length batches /\
  embed_dataset w down_scale
  = ([Dispatch batches],
     run_statistics (Z.of_nat (length (concat (concat batches))))
       (dispatch_end w - dispatch_start w)%float down_scale 19560538957).
Proof.
  intros Hb Hout.
  destruct (counter_total w batches outputs 0 Hout) as [Hlen Hsum].
  split; [exact Hlen|].
  unfold embed_dataset. rewrite Hb, Hout; cbn [bind].
  now rewrite Hsum.
Qed.

(** X11. A sample without text never yields a report. A sample size of
    zero or less (a fraction too small for the dataset, or negative)
    gives no batch; and with no batch the run dispatches nothing and then
    raises [ZeroDivisionError], [ValueError] or [OverflowError] from the
    statistics. *)
Theorem driver_empty_sample_fails w (down_scale : float) :
  (forall (ttl_size_f : float) (sample_size : Z),
      float_of_int (Z.of_nat (length (train w))) = Ok ttl_size_f ->
      int_of_float (ttl_size_f * down_scale)%float = Ok sample_size ->
      sample_size <= 0 ->
      materialized_batchs w down_scale = Ok [])
  /\
  (materialized_batchs w down_scale = Ok [] ->
   exists e,
     embed_dataset w down_scale = ([Dispatch []], Raise e) /\
     (e = ZeroDivisionError \/ e = ValueError \/ e = OverflowError)).
Proof.
  split.
  - intros ttl_size_f sample_size Hf Hn Hle.
    unfold materialized_batchs.
    rewrite Hf; cbn [bind]. rewrite Hn; cbn [bind].
    rewrite range_upto.
    replace (Z.to_nat sample_size) with 0%nat by lia.
    reflexivity.
  - intros Hb. unfold embed_dataset. rewrite Hb; simpl.
    destruct (run_statistics_nothing_counted
                (dispatch_end w - dispatch_start w)%float down_scale
                19560538957) as (e & -> & He).
    exists e. split; [reflexivity|exact He].
Qed.

(** X12. The batches of a run fit the server they are sent to: a process
    returned by [spawn_server] was launched with
    [--max-client-batch-size] set to [BATCH_SIZE], and no dispatched
    batch holds more than [BATCH_SIZE] chunks. *)
Theorem driver_batches_fit_server w (down_scale : float)
    (batches : list (list (list char))) (world : list probe)
    (stdout : list string) (process : Popen) :
  materialized_batchs w down_scale = Ok batches ->
  spawn_server world = Returned stdout (Ok process) ->
  (exists before,
     args process
     = before ++ ["--max-client-batch-size"%string; dec BATCH_SIZE]) /\
  Forall (fun b => Z.of_nat (length b) <= BATCH_SIZE) batches.
Proof.
  intros Hb Hs. split.
  - apply spawn_server_loop_process in Hs; subst process.
    exists ["text-embeddings-router"; "--model-id"; "BAAI/bge-base-en-v1.5";
            "--port"; "8000"]%string.
    reflexivity.
  - exact (proj1 (materialized_batchs_by_128 w down_scale batches Hb)).
Qed.

End DriverExtras.

(** The one-row world at a sampling fraction of 1: one batch of one chunk,
    nine characters. *)
Lemma driver_sample_integrity_witness :
  materialized_batchs one_row_world 1
  = Ok [[list_ascii_of_string "wikipedia"]] /\
  exists (ttl_size_f : float) (sample_size : Z),
    float_of_int (Z.of_nat (length (train one_row_world))) = Ok ttl_size_f /\
    int_of_float (ttl_size_f * 1)%float = Ok sample_size /\
    sample_size <= Z.of_nat (length (train one_row_world)) /\
    concat (concat [[list_ascii_of_string "wikipedia"]])
    = concat (map text (firstn (Z.to_nat sample_size) (train one_row_world))).
Proof.
  assert (H : materialized_batchs one_row_world 1
              = Ok [[list_ascii_of_string "wikipedia"]]) by reflexivity.
  split; [exact H|].
  exact (driver_sample_integrity one_row_world 1 _ H).
Defined.

Lemma driver_counts_dispatched_characters_witness :
  embed_dataset one_row_world 1
  = ([Dispatch [[list_ascii_of_string "wikipedia"]]],
     run_statistics 9 (1 - 0)%float 1 19560538957).
Proof.
  exact (proj2 (driver_counts_dispatched_characters one_row_world 1
                  [[list_ascii_of_string "wikipedia"]]
                  [([[0%float]], 9)] eq_refl eq_refl)).
Defined.

(** Half of one row is no row: nothing is dispatched and the run fails. *)
Lemma driver_empty_sample_fails_witness :
  materialized_batchs one_row_world 0.5 = Ok [] /\
  exists e,
    embed_dataset one_row_world 0.5 = ([Dispatch []], Raise e) /\
    (e = ZeroDivisionError \/ e = ValueError \/ e = OverflowError).
Proof.
  assert (H : materialized_batchs one_row_world 0.5 = Ok []).
  { apply (proj1 (driver_empty_sample_fails one_row_world 0.5) 1%float 0);
      [reflexivity|reflexivity|lia]. }
  split; [exact H|].
  exact (proj2 (driver_empty_sample_fails one_row_world 0.5) H).
Defined.

Lemma driver_batches_fit_server_witness :
  Forall (fun b => Z.of_nat (length b) <= BATCH_SIZE)
         [[list_ascii_of_string "wikipedia"]].
Proof.
  exact (proj2 (driver_batches_fit_server one_row_world 1
                  [[list_ascii_of_string "wikipedia"]]
                  [ {| connection := Connected; poll := None |} ]
                  ["Webserver ready!"%string]
                  {| args := "text-embeddings-router"%string :: LAUNCH_FLAGS |}
                  eq_refl eq_refl)).
Defined.

Lemma float_truediv_divisor (x y q : float) :
  float_truediv x y = Ok q -> (y =? 0)%float = false.
Proof.
  unfold float_truediv. destruct (y =? 0)%float; [discriminate|reflexivity].
Qed.

Lemma int_truediv_divisor (a b : Z) (q : float) :
  int_truediv a b = Ok q -> b <> 0.
Proof.
  unfold int_truediv. destruct (Z.eqb_spec b 0); [discriminate|auto].
Qed.

Lemma timedelta_of_int_seconds_range (n : Z) (td : timedelta) :
  timedelta_of_int_seconds n = Ok td ->
  - (999999999 * 86400) <= n < 1000000000 * 86400.
Proof.
  unfold timedelta_of_int_seconds, timedelta_of_microseconds.
  rewrite Z.div_mul by lia.
  destruct (Z.ltb_spec 999999999 (Z.abs (n / 86400))) as [|Hd];
    [discriminate|].
  intros _.
  pose proof (Z.div_mod n 86400 ltac:(lia)).
  pose proof (Z.mod_pos_bound n 86400 ltac:(lia)).
  lia.
Qed.

(** X13. What every report vouches for: a run that returns a report
    measured a duration other than zero, was given a fraction other than
    zero, found at least one character per second (the field is never 0),
    and extrapolates to less than 1000000000 days either way. *)
Theorem run_report_invariants {char embedding} (w : @World char embedding)
    (down_scale : float) (trace : list event) (stats : dict) :
  embed_dataset w down_scale = (trace, Ok stats) ->
  ((dispatch_end w - dispatch_start w) =? 0)%float = false /\
  (down_scale =? 0)%float = false /\
  exists cps ext,
    dict_get stats "characters_per_second" = Some (VInt cps) /\
    cps <> 0 /\
    dict_get stats "extrapolated_duration" = Some (VInt ext) /\
    - (999999999 * 86400) <= ext < 1000000000 * 86400.
Proof.
  intros Hrun.
  apply embed_dataset_ok in Hrun as (batches & counter & _ & Hstats).
  apply run_statistics_ok in Hstats
    as (cf & q1 & cps & q2 & ext & td & tps & td_tps
        & _ & Hq1 & _ & Hq2 & _ & Htd & Htps & _ & ->).
  split; [exact (float_truediv_divisor _ _ _ Hq1)|].
  split; [exact (float_truediv_divisor _ _ _ Hq2)|].
  exists cps, ext.
  split; [reflexivity|].
  split; [exact (int_truediv_divisor _ _ _ Htps)|].
  split; [reflexivity|].
  exact (timedelta_of_int_seconds_range ext td Htd).
Qed.

Lemma run_report_invariants_witness :
  ((dispatch_end one_row_world - dispatch_start one_row_world) =? 0)%float
  = false /\
  (1 =? 0)%float = false.
Proof.
  destruct (embed_dataset one_row_world 1) as [trace [stats|e]] eqn:Hrun;
    [|vm_compute in Hrun; discriminate].
  destruct (run_report_invariants one_row_world 1 trace stats Hrun)
    as (Hduration & Hscale & _).
  split; assumption.
Defined.
